(** * Supermodel logging subsystem (Src/OSD/Logger.cpp)

    A shallow embedding of the logger objects, of the factory
    [CreateLogger] and of the process-wide entry points, together with the
    properties stated about them.

    Conventions of the embedding:
    - a C string ([const char *]) is the [string] of its characters before
      the terminator, a [std::string] is a [string]; the conversion [c_str]
      is written where the source writes it;
    - a logger object is a value of [CLogger]; a method that mutates the
      object returns the updated object (no claim depends on two owners of
      one sink);
    - everything a method does to the outside world is appended, in
      program order, to a trace of [Event]s. *)

From Stdlib Require Import ZArith String Ascii List Bool Lia DecimalString.
From Stdlib Require Import Sorted.
From Stdlib Require OrderedTypeEx.
From stdpp Require Import base gmap strings list.

Open Scope string_scope.

(* ===================================================================== *)
(** ** Characters and strings *)
(* ===================================================================== *)

Module Str.

(** The line terminator written [\n] in the source's format strings. *)
Definition nl : string := String (ascii_of_nat 10) EmptyString.

(** Keep at most the first [n] characters. *)
Fixpoint take (n : nat) (s : string) : string :=
  match n, s with
  | S n', String c s' => String c (take n' s')
  | _, _ => EmptyString
  end.

(** [std::string::c_str()] read as a C string: the characters before the
    first NUL. *)
Fixpoint c_str (s : string) : string :=
  match s with
  | EmptyString => EmptyString
  | String c s' =>
      if Nat.eqb (nat_of_ascii c) 0 then EmptyString else String c (c_str s')
  end.

(** [n] copies of the character [c]. *)
Fixpoint fill (n : nat) (c : ascii) : string :=
  match n with
  | O => EmptyString
  | S n' => String c (fill n' c)
  end.

End Str.

(** *** The string helpers of Util/Format *)

Module Util.

(** Modelled from the spec: the C library's [tolower] in the "C" locale,
    which [Util::ToLower] (Util/Format, absent from the sources at hand)
    applies to every character: 'A'..'Z' go to 'a'..'z', every other
    character is kept. *)
Definition tolower (c : ascii) : ascii :=
  let n := nat_of_ascii c in
  if (65 <=? n)%nat && (n <=? 90)%nat then ascii_of_nat (n + 32) else c.

(** Modelled from the spec: [Util::ToLower] (Util/Format, absent from the
    sources at hand), the "lower-casing" helper: every character of the
    string is lower-cased. *)
Fixpoint ToLower (s : string) : string :=
  match s with
  | EmptyString => EmptyString
  | String c s' => String (tolower c) (ToLower s')
  end.

(** Modelled from the spec: the C library's [isspace] in the "C" locale
    (space, \t, \n, \v, \f, \r), used by the whitespace-trimming helper. *)
Definition isspace (c : ascii) : bool :=
  let n := nat_of_ascii c in
  (n =? 32)%nat || ((9 <=? n)%nat && (n <=? 13)%nat).

(** Modelled from the spec: the first half of the whitespace-trimming
    helper below, the white space at the start is removed. *)
Fixpoint drop_space (s : string) : string :=
  match s with
  | EmptyString => EmptyString
  | String c s' => if isspace c then drop_space s' else s
  end.

(** Modelled from the spec: the second half of the whitespace-trimming
    helper below, the white space at the end is removed: a character is
    dropped when it is a space and everything after it has been dropped. *)
Fixpoint drop_space_end (s : string) : string :=
  match s with
  | EmptyString => EmptyString
  | String c s' =>
      match drop_space_end s' with
      | EmptyString => if isspace c then EmptyString else String c EmptyString
      | r => String c r
      end
  end.

(** Modelled from the spec: [Util::TrimWhiteSpace] (Util/Format, absent from
    the sources at hand), the "whitespace trimming" helper: the white space
    that surrounds the string is removed, the inside is kept. *)
Definition TrimWhiteSpace (s : string) : string :=
  drop_space_end (drop_space s).

(** Modelled from the spec: the loop of the delimiter-splitting helper
    below; [cur] is the part being read, reversed. *)
Fixpoint split_go (sep : ascii) (cur : string) (s : string) : list string :=
  match s with
  | EmptyString => [String.rev cur]
  | String c s' =>
      if Ascii.eqb c sep
      then String.rev cur :: split_go sep EmptyString s'
      else split_go sep (String c cur) s'
  end.

(** Modelled from the spec: [Util::Format(s).Split(sep)] (Util/Format,
    absent from the sources at hand), the "delimiter splitting" helper: the
    parts between the separators, in order, empty parts included (the
    spec's "empty tokens, e.g. from consecutive commas"); the empty string
    has one empty part. *)
Definition Split (s : string) (sep : ascii) : list string :=
  split_go sep EmptyString s.

End Util.

(* ===================================================================== *)
(** ** printf-style formatting *)
(* ===================================================================== *)

(** One variadic argument. *)
Inductive Arg : Type :=
| ArgStr (s : string)      (* a [const char *] for %s *)
| ArgInt (z : Z).          (* an [int] for %d *)

Module Printf.

Definition decimal (z : Z) : string := NilZero.string_of_int (Z.to_int z).

(** The expansion of a format string: the conversions [%s], [%d] and [%%]
    are interpreted, every other character is copied.  A conversion whose
    argument is missing or of the other kind (undefined in C) and any other
    conversion specifier are copied as they stand. *)
Fixpoint expand (fmt : string) (args : list Arg) : string :=
  match fmt with
  | EmptyString => EmptyString
  | String c rest =>
      if Ascii.eqb c "%"%char then
        match rest with
        | String d rest' =>
            if Ascii.eqb d "s"%char then
              match args with
              | ArgStr s :: args' => s ++ expand rest' args'
              | _ => String c (String d (expand rest' args))
              end
            else if Ascii.eqb d "d"%char then
              match args with
              | ArgInt z :: args' => decimal z ++ expand rest' args'
              | _ => String c (String d (expand rest' args))
              end
            else if Ascii.eqb d "%"%char then
              String "%"%char (expand rest' args)
            else String c (String d (expand rest' args))
        | EmptyString => String c EmptyString
        end
      else String c (expand rest args)
  end.

(** [snprintf(buf, size, fmt, ...)] and [vsnprintf]: the content of [buf]
    afterwards, at most [size - 1] characters of the expansion (the last
    byte of the buffer holds the terminator). *)
Definition snprintf (size : nat) (fmt : string) (args : list Arg) : string :=
  Str.take (size - 1) (expand fmt args).

End Printf.

(* ===================================================================== *)
(** ** [std::set<std::string>] *)
(* ===================================================================== *)

(** A [std::set<std::string>] is kept as the list of its elements in the
    order of iteration: increasing for [std::string]'s [operator<], the
    lexicographic order on the characters' codes. *)
Module StdSet.

Definition t := list string.

Definition empty : t := [].

(** [s.insert(x)]: nothing changes when [x] is already there. *)
Fixpoint insert (x : string) (s : t) : t :=
  match s with
  | [] => [x]
  | y :: s' =>
      match String.compare x y with
      | Lt => x :: y :: s'
      | Eq => y :: s'
      | Gt => y :: insert x s'
      end
  end.

(** [s.count(x)]: 0 or 1. *)
Fixpoint count (x : string) (s : t) : nat :=
  match s with
  | [] => 0
  | y :: s' => if String.eqb x y then 1 else count x s'
  end.

(** The set written [{ x1, ..., xn }] in the source. *)
Definition of_list (l : list string) : t :=
  fold_left (fun s x => insert x s) l empty.

(** [std::string]'s [operator<], and the invariant of the representation:
    the elements increase strictly. *)
Definition lt (a b : string) : Prop := String.compare a b = Lt.

Definition ordered (s : t) : Prop := StronglySorted lt s.

End StdSet.

(* ===================================================================== *)
(** ** Data model *)
(* ===================================================================== *)

(** Modelled from the spec: the enumeration [CLogger::LogLevel] is declared
    in OSD/Logger.h, absent from the sources at hand.  The spec gives the
    ordered enumeration Debug < Info < Error and the sentinel All, "a value
    lower than Debug". *)
Inductive LogLevel : Type := All | Debug | Info | Error.

(** Modelled from the spec: the values of the enumerators, in the order the
    spec gives (All below Debug below Info below Error); the sinks only
    compare them. *)
Definition LogLevel_int (l : LogLevel) : Z :=
  match l with
  | All => 0
  | Debug => 1
  | Info => 2
  | Error => 3
  end.

(** The comparison [a > b] on the enumeration, as the sinks write it. *)
Definition LogLevel_gt (a b : LogLevel) : bool :=
  (LogLevel_int a >? LogLevel_int b)%Z.

(** Modelled from the spec: the macros [OKAY] and [FAIL] come from a header
    absent from the sources at hand; [OKAY] is the spec's "success
    indicator" of a [bool] result. *)
Definition OKAY : bool := false.

(** Modelled from the spec: [FAIL] is the spec's "failure indicator". *)
Definition FAIL : bool := true.

(** The two pre-opened C streams the factory hands to a file logger. *)
Inductive FILE : Type := stdout | stderr.

(** [std::ios::out] (create or truncate) and [std::ios::app] (append). *)
Inductive openmode : Type := ios_out | ios_app.

(** The priorities the system logger passes to [syslog]. *)
Inductive priority : Type := LOG_DEBUG | LOG_INFO | LOG_ERR.

(** An open [std::ofstream] is named by the path it was opened on. *)
Definition ofstream := string.

(** What the code does to the outside world. *)
Inductive Event : Type :=
| EvFputs (fp : FILE) (str : string)          (* fputs / fprintf on a C stream *)
| EvWrite (ofs : ofstream) (str : string)     (* ofs << str *)
| EvClose (ofs : ofstream)                    (* ofs.close() *)
| EvOpen (path : string) (mode : openmode) (ok : bool)
                                              (* std::ofstream ofs(path, mode);
                                                 ok = is_open() && good() *)
| EvSyslog (p : priority) (str : string)      (* syslog(p, str), OutputDebugString(str) *)
| EvLock                                      (* the unique_lock on m_mtx is taken *)
| EvUnlock.                                   (* ... and released *)

(** The fields of a [CFileLogger]. *)
Record CFileLogger : Type := mkFileLogger {
  m_logLevel : LogLevel;
  m_logFilenames : list string;
  m_systemFiles : list FILE;
  m_logFiles : list ofstream
}.

(** The four classes that implement the interface [CLogger]. *)
#[warnings="-register-all"]
Inductive CLogger : Type :=
| MultiLogger (m_loggers : list CLogger)
| ConsoleErrorLogger
| FileLogger (f : CFileLogger)
| SystemLogger (m_logLevel : LogLevel).

(** Induction on a logger, through the list of a [CMultiLogger]. *)
Fixpoint CLogger_nested_ind (P : CLogger -> Prop)
    (Hmulti : forall loggers, Forall P loggers -> P (MultiLogger loggers))
    (Hconsole : P ConsoleErrorLogger)
    (Hfile : forall f, P (FileLogger f))
    (Hsystem : forall level, P (SystemLogger level))
    (logger : CLogger) {struct logger} : P logger :=
  match logger with
  | MultiLogger loggers =>
      Hmulti loggers
        ((fix all (ls : list CLogger) : Forall P ls :=
            match ls with
            | [] => @List.Forall_nil CLogger P
            | l :: ls' =>
                @List.Forall_cons CLogger P l ls'
                  (CLogger_nested_ind P Hmulti Hconsole Hfile Hsystem l)
                  (all ls')
            end) loggers)
  | ConsoleErrorLogger => Hconsole
  | FileLogger f => Hfile f
  | SystemLogger level => Hsystem level
  end.

(** The three virtual methods of the interface. *)
Inductive Method : Type := mDebugLog | mInfoLog | mErrorLog.

(** The process: the static [s_Logger] and the trace of what was done. *)
Record State : Type := mkState {
  s_Logger : option CLogger;
  trace : list Event
}.

(* ===================================================================== *)
(** ** Actions on the trace *)
(* ===================================================================== *)

Definition IO (A : Type) : Type := list Event -> A * list Event.

Definition ret {A} (a : A) : IO A := fun t => (a, t).

Definition bind {A B} (m : IO A) (k : A -> IO B) : IO B :=
  fun t => let (a, t') := m t in k a t'.

Definition emit (e : Event) : IO unit := fun t => (tt, (t ++ [e])%list).

Notation "'let*' x ':=' m 'in' k" := (bind m (fun x => k))
  (at level 10, x name, m at level 100, k at level 200).
Notation "m ';;' k" := (bind m (fun _ => k))
  (at level 100, k at level 200, right associativity).

(** A range-based [for] whose body only acts on the outside world. *)
Fixpoint for_each {A} (body : A -> IO unit) (l : list A) : IO unit :=
  match l with
  | [] => ret tt
  | x :: l' => body x ;; for_each body l'
  end.

(** What was handed to the C stream [fp], in order. *)
Fixpoint written_to (fp : FILE) (t : list Event) : list string :=
  match t with
  | [] => []
  | EvFputs fp' str :: t' =>
      match fp, fp' with
      | stdout, stdout | stderr, stderr => str :: written_to fp t'
      | _, _ => written_to fp t'
      end
  | _ :: t' => written_to fp t'
  end.

(** The level a method of the interface logs at: the constant its guard
    compares [m_logLevel] with. *)
Definition Method_level (m : Method) : LogLevel :=
  match m with
  | mDebugLog => Debug
  | mInfoLog => Info
  | mErrorLog => Error
  end.

(** The priority each method of the system logger passes on. *)
Definition Method_priority (m : Method) : priority :=
  match m with
  | mDebugLog => LOG_DEBUG
  | mInfoLog => LOG_INFO
  | mErrorLog => LOG_ERR
  end.

(** The paths of the open attempts that succeeded, in order. *)
Fixpoint opened_paths (evs : list Event) : list ofstream :=
  match evs with
  | [] => []
  | EvOpen path _ true :: evs' => path :: opened_paths evs'
  | _ :: evs' => opened_paths evs'
  end.

(** An open attempt on the path of [filename] in [mode]. *)
Definition is_open_of (mode : openmode) (filename : string) (e : Event) : Prop :=
  exists ok : bool, e = EvOpen (Str.c_str filename) mode ok.

(** The event is not an open in [std::ios::out] mode, the mode that
    truncates a file.  An open in [std::ios::app] mode passes: it truncates
    nothing, though it creates the file when it is missing. *)
Definition no_truncate (e : Event) : Prop :=
  match e with
  | EvOpen _ ios_out _ => False
  | _ => True
  end.

(** *** Observations on loggers and traces *)

(** The logger with its open handles forgotten: what is left is what the
    constructors were given. *)
Fixpoint forget_handles (logger : CLogger) : CLogger :=
  match logger with
  | MultiLogger loggers => MultiLogger (map forget_handles loggers)
  | ConsoleErrorLogger => ConsoleErrorLogger
  | FileLogger f =>
      FileLogger (mkFileLogger (m_logLevel f) (m_logFilenames f)
                    (m_systemFiles f) [])
  | SystemLogger level => SystemLogger level
  end.

(** The C streams the methods of a logger write to. *)
Fixpoint streams_of (logger : CLogger) : list FILE :=
  match logger with
  | MultiLogger loggers => concat (map streams_of loggers)
  | ConsoleErrorLogger => [stderr]
  | FileLogger f => m_systemFiles f
  | SystemLogger _ => []
  end.

(** The handles the file loggers of a logger hold open. *)
Fixpoint handles_of (logger : CLogger) : list ofstream :=
  match logger with
  | MultiLogger loggers => concat (map handles_of loggers)
  | FileLogger f => m_logFiles f
  | _ => []
  end.

(** The paths of the file names of the file loggers of a logger. *)
Fixpoint paths_of (logger : CLogger) : list string :=
  match logger with
  | MultiLogger loggers => concat (map paths_of loggers)
  | FileLogger f => map Str.c_str (m_logFilenames f)
  | _ => []
  end.

Definition FILE_eqb (a b : FILE) : bool :=
  match a, b with
  | stdout, stdout | stderr, stderr => true
  | _, _ => false
  end.

(** What has been written to a handle and not yet followed by a close of
    that handle: the lines a crash could lose. *)
Definition unsaved_step (pending : list (ofstream * string)) (e : Event)
    : list (ofstream * string) :=
  match e with
  | EvWrite ofs str => (pending ++ [(ofs, str)])%list
  | EvClose ofs => List.filter (fun w => negb (String.eqb (fst w) ofs)) pending
  | _ => pending
  end.

Definition unsaved_from (pending : list (ofstream * string)) (t : list Event)
    : list (ofstream * string) :=
  fold_left unsaved_step t pending.

Definition unsaved (t : list Event) : list (ofstream * string) :=
  unsaved_from [] t.

(** [h] is one of the handles [hs]. *)
Definition is_handle (hs : list ofstream) (h : ofstream) : bool :=
  existsb (String.eqb h) hs.

(** The discipline of the mutex along a trace: [held] says whether the lock
    is held at the start; the result is [None] when the lock is taken
    twice, released while free, or when a log file is written, closed or
    reopened for appending while the lock is free, and else says whether
    the lock is held at the end. *)
Fixpoint lock_discipline (held : bool) (t : list Event) : option bool :=
  match t with
  | [] => Some held
  | EvLock :: t' => if held then None else lock_discipline true t'
  | EvUnlock :: t' => if held then lock_discipline false t' else None
  | EvWrite _ _ :: t' | EvClose _ :: t' | EvOpen _ ios_app _ :: t' =>
      if held then lock_discipline held t' else None
  | _ :: t' => lock_discipline held t'
  end.

(** The event leaves the log files alone but for these: a write or a close
    is on one of [handles]; an open attempt is on one of [paths] and in
    append mode. *)
Definition own_file_event (handles : list ofstream) (paths : list string)
    (e : Event) : Prop :=
  match e with
  | EvWrite ofs _ => ofs ∈ handles
  | EvClose ofs => ofs ∈ handles
  | EvOpen path mode _ => path ∈ paths /\ mode = ios_app
  | _ => True
  end.

(** A file system where no open succeeds. *)
Definition never_opens : list Event -> string -> openmode -> bool :=
  fun _ _ _ => false.

(** A file logger with one log file, open, that also writes to [stdout]. *)
Definition sample_FileLogger (floor : LogLevel) : CFileLogger :=
  mkFileLogger floor ["supermodel.log"] [stdout] ["supermodel.log"].

(** A file system where every open succeeds. *)
Definition always_opens : list Event -> string -> openmode -> bool :=
  fun _ _ _ => true.

(** A configuration with the two keys the factory reads. *)
Definition config_of (logLevel logOutput : string) : gmap string string :=
  <["LogLevel" := logLevel]> (<["LogOutput" := logOutput]> ∅).

(** Sample configurations: every kind of destination; a destination list
    with repeated entries; a level that does not exist. *)
Definition config_everything : gmap string string :=
  config_of "all" "syslog,,b,a, stderr,stdout".

Definition outputs_repeated : string := "stdout, STDOUT ,  FILE.txt,file.txt".

Definition config_repeated : gmap string string :=
  config_of "info" outputs_repeated.

Definition config_verbose : gmap string string :=
  config_of "verbose" "stderr,supermodel.log".

(** The process at start-up: no logger installed, nothing done yet. *)
Definition state_startup : State := mkState None [].

(* ===================================================================== *)
(** ** The logger classes *)
(* ===================================================================== *)

Section Logger.

(** The size of the message buffers, the macro [MAX_LOG_LENGTH] of
    OSD/Logger.h (absent from the sources at hand): a parameter. *)
Variable MAX_LOG_LENGTH : nat.

(** The file system: whether opening [path] in [mode] succeeds, which may
    depend on everything done so far. *)
Variable open_ok : list Event -> string -> openmode -> bool.

(** *** CConsoleErrorLogger *)

Definition CConsoleErrorLogger_DebugLog (message : string) : IO unit :=
  ret tt.

Definition CConsoleErrorLogger_InfoLog (message : string) : IO unit :=
  ret tt.

(** [fprintf] has no buffer: the expansion is written whole. *)
Definition CConsoleErrorLogger_ErrorLog (message : string) : IO unit :=
  emit (EvFputs stderr (Printf.expand ("Error: %s" ++ Str.nl) [ArgStr message])).

(** *** CFileLogger *)

Definition CFileLogger_WriteToFiles (this : CFileLogger) (str : string) : IO unit :=
  for_each (fun ofs => emit (EvWrite ofs str)) (m_logFiles this) ;;
  for_each (fun fp => emit (EvFputs fp str)) (m_systemFiles this).

(** [std::ofstream ofs(filename.c_str(), mode)] and the test
    [ofs.is_open() && ofs.good()]. *)
Definition open_ofstream (filename : string) (mode : openmode) : IO bool :=
  fun t =>
    let path := Str.c_str filename in
    let ok := open_ok t path mode in
    (ok, (t ++ [EvOpen path mode ok])%list).

(** The second loop of [ReopenFiles]; [files] is [m_logFiles] so far. *)
Fixpoint open_each (mode : openmode) (filenames : list string)
    (files : list ofstream) : IO (list ofstream) :=
  match filenames with
  | [] => ret files
  | filename :: rest =>
      let* ok := open_ofstream filename mode in
      open_each mode rest
        (if ok then (files ++ [Str.c_str filename])%list else files)
  end.

Definition CFileLogger_ReopenFiles (this : CFileLogger) (mode : openmode)
    : IO CFileLogger :=
  (* Close existing *)
  for_each (fun ofs => emit (EvClose ofs)) (m_logFiles this) ;;
  (* (Re-)Open *)
  let* files := open_each mode (m_logFilenames this) [] in
  ret (mkFileLogger (m_logLevel this) (m_logFilenames this)
         (m_systemFiles this) files).

(** The declaration [char log_message[...]] of each method and the format
    of its [snprintf]. *)
Definition CFileLogger_sizeof_log_message (m : Method) : nat :=
  match m with
  | mDebugLog => MAX_LOG_LENGTH + 9
  | mInfoLog => MAX_LOG_LENGTH + 8
  | mErrorLog => MAX_LOG_LENGTH + 9
  end.

Definition CFileLogger_format (m : Method) : string :=
  match m with
  | mDebugLog => "[Debug] %s" ++ Str.nl
  | mInfoLog => "[Info] %s" ++ Str.nl
  | mErrorLog => "[Error] %s" ++ Str.nl
  end.

(** [snprintf(log_message, sizeof log_message, format, message)]. *)
Definition CFileLogger_log_message (m : Method) (message : string) : string :=
  Printf.snprintf (CFileLogger_sizeof_log_message m) (CFileLogger_format m)
    [ArgStr message].

Definition CFileLogger_DebugLog (this : CFileLogger) (message : string)
    : IO CFileLogger :=
  if LogLevel_gt (m_logLevel this) Debug then ret this
  else
    let log_message := CFileLogger_log_message mDebugLog message in
    (* Debug logging is so copious that we don't bother to guarantee it is
       saved *)
    emit EvLock ;;
    CFileLogger_WriteToFiles this log_message ;;
    emit EvUnlock ;;
    ret this.

Definition CFileLogger_InfoLog (this : CFileLogger) (message : string)
    : IO CFileLogger :=
  if LogLevel_gt (m_logLevel this) Info then ret this
  else
    let log_message := CFileLogger_log_message mInfoLog message in
    (* Write to file, close, and reopen to ensure it was saved *)
    emit EvLock ;;
    CFileLogger_WriteToFiles this log_message ;;
    let* this' := CFileLogger_ReopenFiles this ios_app in
    emit EvUnlock ;;
    ret this'.

Definition CFileLogger_ErrorLog (this : CFileLogger) (message : string)
    : IO CFileLogger :=
  if LogLevel_gt (m_logLevel this) Error then ret this
  else
    let log_message := CFileLogger_log_message mErrorLog message in
    (* Write to file, close, and reopen to ensure it was saved *)
    emit EvLock ;;
    CFileLogger_WriteToFiles this log_message ;;
    let* this' := CFileLogger_ReopenFiles this ios_app in
    emit EvUnlock ;;
    ret this'.

(** The constructor with two arguments: no pre-opened stream. *)
Definition CFileLogger_new_files (level : LogLevel) (filenames : list string)
    : IO CFileLogger :=
  CFileLogger_ReopenFiles (mkFileLogger level filenames [] []) ios_out.

(** The constructor with three arguments, the one the factory calls. *)
Definition CFileLogger_new (level : LogLevel) (filenames : list string)
    (systemFiles : list FILE) : IO CFileLogger :=
  CFileLogger_ReopenFiles (mkFileLogger level filenames systemFiles []) ios_out.

(** *** CSystemLogger *)

Definition CSystemLogger_sizeof_log_message (m : Method) : nat :=
  match m with
  | mDebugLog => MAX_LOG_LENGTH + 8
  | mInfoLog => MAX_LOG_LENGTH + 8
  | mErrorLog => MAX_LOG_LENGTH + 9
  end.

Definition CSystemLogger_format (m : Method) : string :=
  match m with
  | mDebugLog => "[Debug] %s"
  | mInfoLog => "[Info] %s" ++ Str.nl
  | mErrorLog => "[Error] %s" ++ Str.nl
  end.

Definition CSystemLogger_log_message (m : Method) (message : string) : string :=
  Printf.snprintf (CSystemLogger_sizeof_log_message m) (CSystemLogger_format m)
    [ArgStr message].

(** [syslog(priority, log_message)]; the Windows build hands the same
    string to [OutputDebugString]. *)
Definition CSystemLogger_DebugLog (m_logLevel : LogLevel) (message : string)
    : IO unit :=
  if LogLevel_gt m_logLevel Debug then ret tt
  else
    let log_message := CSystemLogger_log_message mDebugLog message in
    emit (EvSyslog LOG_DEBUG log_message).

Definition CSystemLogger_InfoLog (m_logLevel : LogLevel) (message : string)
    : IO unit :=
  if LogLevel_gt m_logLevel Info then ret tt
  else
    let log_message := CSystemLogger_log_message mInfoLog message in
    emit (EvSyslog LOG_INFO log_message).

Definition CSystemLogger_ErrorLog (m_logLevel : LogLevel) (message : string)
    : IO unit :=
  if LogLevel_gt m_logLevel Error then ret tt
  else
    let log_message := CSystemLogger_log_message mErrorLog message in
    emit (EvSyslog LOG_ERR log_message).

(** *** Virtual dispatch, and CMultiLogger *)

Definition CConsoleErrorLogger_call (m : Method) : string -> IO unit :=
  match m with
  | mDebugLog => CConsoleErrorLogger_DebugLog
  | mInfoLog => CConsoleErrorLogger_InfoLog
  | mErrorLog => CConsoleErrorLogger_ErrorLog
  end.

Definition CFileLogger_call (m : Method) : CFileLogger -> string -> IO CFileLogger :=
  match m with
  | mDebugLog => CFileLogger_DebugLog
  | mInfoLog => CFileLogger_InfoLog
  | mErrorLog => CFileLogger_ErrorLog
  end.

Definition CSystemLogger_call (m : Method) : LogLevel -> string -> IO unit :=
  match m with
  | mDebugLog => CSystemLogger_DebugLog
  | mInfoLog => CSystemLogger_InfoLog
  | mErrorLog => CSystemLogger_ErrorLog
  end.

(** [logger->m(message)] through the interface.  The three methods of
    [CMultiLogger] are the same loop over [m_loggers], each calling the
    method of its own name. *)
Fixpoint CLogger_call (m : Method) (this : CLogger) (message : string)
    {struct this} : IO CLogger :=
  match this with
  | MultiLogger loggers =>
      let* loggers' :=
        (fix each (ls : list CLogger) : IO (list CLogger) :=
           match ls with
           | [] => ret []
           | logger :: rest =>
               let* logger' := CLogger_call m logger message in
               let* rest' := each rest in
               ret (logger' :: rest')
           end) loggers in
      ret (MultiLogger loggers')
  | ConsoleErrorLogger =>
      CConsoleErrorLogger_call m message ;; ret ConsoleErrorLogger
  | FileLogger f =>
      let* f' := CFileLogger_call m f message in ret (FileLogger f')
  | SystemLogger level =>
      CSystemLogger_call m level message ;; ret (SystemLogger level)
  end.

(** The loop of [CMultiLogger], by name. *)
Fixpoint CMultiLogger_each (m : Method) (loggers : list CLogger)
    (message : string) : IO (list CLogger) :=
  match loggers with
  | [] => ret []
  | logger :: rest =>
      let* logger' := CLogger_call m logger message in
      let* rest' := CMultiLogger_each m rest message in
      ret (logger' :: rest')
  end.

(* ===================================================================== *)
(** ** The process-wide logger and the entry points *)
(* ===================================================================== *)

Definition GetLogger (st : State) : option CLogger := s_Logger st.

Definition SetLogger (logger : option CLogger) (st : State) : State :=
  mkState logger (trace st).

(** [s_Logger->m(message)]: the object [s_Logger] points to is updated. *)
Definition s_Logger_call (m : Method) (logger : CLogger) (message : string)
    (st : State) : State :=
  let (logger', t) := CLogger_call m logger message (trace st) in
  mkState (Some logger') t.

Definition DebugLog (fmt : string) (args : list Arg) (st : State) : State :=
  match s_Logger st with
  | None => st
  | Some logger =>
      let message := Printf.snprintf MAX_LOG_LENGTH fmt args in
      s_Logger_call mDebugLog logger message st
  end.

Definition InfoLog (fmt : string) (args : list Arg) (st : State) : State :=
  match s_Logger st with
  | None => st
  | Some logger =>
      let message := Printf.snprintf MAX_LOG_LENGTH fmt args in
      s_Logger_call mInfoLog logger message st
  end.

Definition ErrorLog (fmt : string) (args : list Arg) (st : State)
    : bool * State :=
  match s_Logger st with
  | None => (FAIL, st)
  | Some logger =>
      let message := Printf.snprintf MAX_LOG_LENGTH fmt args in
      (FAIL, s_Logger_call mErrorLog logger message st)
  end.

(* ===================================================================== *)
(** ** The factory *)
(* ===================================================================== *)

(** Modelled from the spec: [Util::Config::Node] is an external
    collaborator ("hierarchical key lookup with typed default values");
    [config[key].ValueAsDefault<std::string>(dflt)] is the string stored
    under [key], or [dflt] when the key is absent. *)
Definition ValueAsDefault (config : gmap string string) (key dflt : string)
    : string :=
  default dflt (config !! key).

Definition logLevelByString : gmap string LogLevel :=
  <["debug" := Debug]> (<["info" := Info]> (<["error" := Error]>
    (<["all" := All]> ∅))).

Definition GetLogLevel (config : gmap string string) (st : State)
    : (bool * LogLevel) * State :=
  let logLevel := Util.ToLower (ValueAsDefault config "LogLevel" "info") in
  match logLevelByString !! logLevel with
  | Some level => ((OKAY, level), st)
  | None =>
      let (_, st') :=
        ErrorLog "Invalid log level: %s" [ArgStr (Str.c_str logLevel)] st in
      ((FAIL, Info), st')
  end.

Definition supportedDestinations : StdSet.t :=
  StdSet.of_list ["stdout"; "stderr"; "syslog"].

Definition string_empty (s : string) : bool :=
  match s with
  | EmptyString => true
  | String _ _ => false
  end.

(** The body of the loop over [outputs]; the pair is
    ([destinations], [filenames]). *)
Definition classify (sets : StdSet.t * StdSet.t) (output : string)
    : StdSet.t * StdSet.t :=
  let (destinations, filenames) := sets in
  (* Is this a known destination or a file? *)
  let canonicalizedOutput := Util.TrimWhiteSpace (Util.ToLower output) in
  if (0 <? StdSet.count canonicalizedOutput supportedDestinations)%nat then
    (StdSet.insert canonicalizedOutput destinations, filenames)
  else if negb (string_empty canonicalizedOutput) then
    (destinations, StdSet.insert (Util.TrimWhiteSpace output) filenames)
  else (destinations, filenames).

Definition parse_outputs (outputs : list string) : StdSet.t * StdSet.t :=
  fold_left classify outputs (StdSet.empty, StdSet.empty).

(** The pre-opened streams the factory collects from [destinations]. *)
Definition collect_systemFiles (destinations : StdSet.t) : list FILE :=
  let systemFiles := [] in
  let systemFiles :=
    if (0 <? StdSet.count "stdout" destinations)%nat
    then (systemFiles ++ [stdout])%list else systemFiles in
  let systemFiles :=
    if (0 <? StdSet.count "stderr" destinations)%nat
    then (systemFiles ++ [stderr])%list else systemFiles in
  systemFiles.

Definition list_empty {A} (l : list A) : bool :=
  match l with
  | [] => true
  | _ :: _ => false
  end.

Definition CreateLogger (config : gmap string string) (st : State)
    : option CLogger * State :=
  let loggers : list CLogger := [] in
  (* Get log level *)
  let '(logLevelResult, st) := GetLogLevel config st in
  if negb (Bool.eqb (fst logLevelResult) OKAY) then (None, st)
  else
    let logLevel := snd logLevelResult in
    (* Console message logger always required *)
    let loggers := (loggers ++ [ConsoleErrorLogger])%list in
    (* Parse other log outputs *)
    let logOutputs := ValueAsDefault config "LogOutput" EmptyString in
    let outputs := Util.Split logOutputs ","%char in
    let (destinations, filenames) := parse_outputs outputs in
    (* File logger (if any files were specified) *)
    let logFilenames : list string := filenames in
    let systemFiles := collect_systemFiles destinations in
    let '(loggers, t) :=
      if negb (list_empty logFilenames) || negb (list_empty systemFiles) then
        let (f, t) := CFileLogger_new logLevel logFilenames systemFiles (trace st) in
        ((loggers ++ [FileLogger f])%list, t)
      else (loggers, trace st) in
    (* System logger *)
    let loggers :=
      if (0 <? StdSet.count "syslog" destinations)%nat
      then (loggers ++ [SystemLogger logLevel])%list else loggers in
    (Some (MultiLogger loggers), mkState (s_Logger st) t).

(* ===================================================================== *)
(** ** A run of the program *)
(* ===================================================================== *)

(** A call of one of the three entry points, by its method. *)
Definition entry (m : Method) (fmt : string) (args : list Arg) (st : State)
    : State :=
  match m with
  | mDebugLog => DebugLog fmt args st
  | mInfoLog => InfoLog fmt args st
  | mErrorLog => snd (ErrorLog fmt args st)
  end.

(** The calls of the entry points a program makes, one after the other. *)
Fixpoint run (calls : list (Method * string * list Arg)) (st : State) : State :=
  match calls with
  | [] => st
  | (m, fmt, args) :: calls' => run calls' (entry m fmt args st)
  end.

(* ===================================================================== *)
(** ** Properties *)
(* ===================================================================== *)

(** *** Strings and formatting *)

Lemma append_cons (x : ascii) (a b : string) :
  String x a ++ b = String x (a ++ b).
Proof. reflexivity. Qed.

Lemma append_empty_r (a : string) : a ++ EmptyString = a.
Proof.
  induction a as [|x a IH]; [reflexivity | now rewrite append_cons, IH].
Qed.

Lemma append_assoc (a b c : string) : (a ++ b) ++ c = a ++ (b ++ c).
Proof.
  induction a as [|x a IH]; [reflexivity | now rewrite !append_cons, IH].
Qed.

Lemma length_append (a b : string) :
  String.length (a ++ b) = String.length a + String.length b.
Proof.
  induction a as [|x a IH]; [reflexivity |].
  rewrite append_cons; simpl; now rewrite IH.
Qed.

Lemma take_all (n : nat) (s : string) :
  String.length s <= n -> Str.take n s = s.
Proof.
  revert n; induction s as [|x s IH]; intros [|n] H; simpl in *;
    try reflexivity; try lia.
  f_equal; apply IH; lia.
Qed.

Lemma length_take (n : nat) (s : string) :
  String.length (Str.take n s) = Nat.min n (String.length s).
Proof.
  revert n; induction s as [|x s IH]; intros [|n]; simpl; try reflexivity.
  now rewrite IH.
Qed.

Lemma take_append (a b : string) : Str.take (String.length a) (a ++ b) = a.
Proof.
  induction a as [|x a IH]; [now destruct b |].
  rewrite append_cons; simpl; now rewrite IH.
Qed.

Lemma length_fill (n : nat) (c : ascii) : String.length (Str.fill n c) = n.
Proof. induction n as [|n IH]; simpl; [reflexivity | now rewrite IH]. Qed.

(** The message an entry point forwards fits its buffer. *)
Lemma length_snprintf (size : nat) (fmt : string) (args : list Arg) :
  String.length (Printf.snprintf size fmt args) <= size - 1.
Proof. unfold Printf.snprintf. rewrite length_take. lia. Qed.

(** The four format strings of the sinks, expanded. *)
Lemma expand_Debug_nl (message : string) :
  Printf.expand ("[Debug] %s" ++ Str.nl) [ArgStr message]
  = "[Debug] " ++ message ++ Str.nl.
Proof. reflexivity. Qed.

Lemma expand_Debug (message : string) :
  Printf.expand "[Debug] %s" [ArgStr message] = "[Debug] " ++ message.
Proof.
  change (Printf.expand "[Debug] %s" [ArgStr message])
    with ("[Debug] " ++ (message ++ EmptyString)).
  now rewrite append_empty_r.
Qed.

Lemma expand_Info_nl (message : string) :
  Printf.expand ("[Info] %s" ++ Str.nl) [ArgStr message]
  = "[Info] " ++ message ++ Str.nl.
Proof. reflexivity. Qed.

Lemma expand_Error_nl (message : string) :
  Printf.expand ("[Error] %s" ++ Str.nl) [ArgStr message]
  = "[Error] " ++ message ++ Str.nl.
Proof. reflexivity. Qed.

Lemma expand_console (message : string) :
  Printf.expand ("Error: %s" ++ Str.nl) [ArgStr message]
  = "Error: " ++ message ++ Str.nl.
Proof. reflexivity. Qed.

Lemma expand_invalid (token : string) :
  Printf.expand "Invalid log level: %s" [ArgStr token]
  = "Invalid log level: " ++ token.
Proof.
  change (Printf.expand "Invalid log level: %s" [ArgStr token])
    with ("Invalid log level: " ++ (token ++ EmptyString)).
  now rewrite append_empty_r.
Qed.

(** *** What the methods of the sinks do *)

Lemma for_each_emit {A} (f : A -> Event) (l : list A) (t : list Event) :
  for_each (fun x => emit (f x)) l t = (tt, (t ++ map f l)%list).
Proof.
  revert t; induction l as [|x l IH]; intros t; simpl.
  - unfold ret. now rewrite app_nil_r.
  - unfold bind at 1, emit at 1. rewrite IH. now rewrite <- app_assoc.
Qed.

Lemma WriteToFiles_run (this : CFileLogger) (str : string) (t : list Event) :
  CFileLogger_WriteToFiles this str t
  = (tt, (t ++ map (fun ofs => EvWrite ofs str) (m_logFiles this)
            ++ map (fun fp => EvFputs fp str) (m_systemFiles this))%list).
Proof.
  unfold CFileLogger_WriteToFiles, bind.
  rewrite for_each_emit, for_each_emit. now rewrite <- app_assoc.
Qed.

Lemma opened_paths_app (a b : list Event) :
  opened_paths (a ++ b) = (opened_paths a ++ opened_paths b)%list.
Proof.
  induction a as [|e a IH]; [reflexivity |].
  destruct e as [| | |path mode [|]| | |]; simpl; now rewrite IH.
Qed.

Lemma open_each_run (mode : openmode) (filenames : list string)
    (files : list ofstream) (t : list Event) :
  exists opens : list Event,
    open_each mode filenames files t
    = ((files ++ opened_paths opens)%list, (t ++ opens)%list)
    /\ Forall2 (is_open_of mode) filenames opens.
Proof.
  revert files t; induction filenames as [|filename rest IH]; intros files t.
  - exists []. simpl. unfold ret. rewrite !app_nil_r. split; [reflexivity | constructor].
  - simpl. unfold bind, open_ofstream.
    set (path := Str.c_str filename).
    set (ok := open_ok t path mode).
    destruct (IH (if ok then (files ++ [path])%list else files)
                 (t ++ [EvOpen path mode ok])%list) as (opens & Hrun & Hall).
    exists (EvOpen path mode ok :: opens). split.
    + rewrite Hrun. f_equal.
      * destruct ok; simpl; [now rewrite <- app_assoc | reflexivity].
      * now rewrite <- app_assoc.
    + constructor; [now exists ok | exact Hall].
Qed.

Lemma ReopenFiles_run (this : CFileLogger) (mode : openmode) (t : list Event) :
  exists opens : list Event,
    CFileLogger_ReopenFiles this mode t
    = (mkFileLogger (m_logLevel this) (m_logFilenames this)
         (m_systemFiles this) (opened_paths opens),
       (t ++ map EvClose (m_logFiles this) ++ opens)%list)
    /\ Forall2 (is_open_of mode) (m_logFilenames this) opens.
Proof.
  unfold CFileLogger_ReopenFiles, bind. rewrite for_each_emit.
  destruct (open_each_run mode (m_logFilenames this) []
              (t ++ map EvClose (m_logFiles this))%list) as (opens & Hrun & Hall).
  exists opens. rewrite Hrun. unfold ret. simpl.
  split; [now rewrite <- app_assoc | exact Hall].
Qed.

(** The skip test of the sinks, in terms of the levels' values. *)
Lemma LogLevel_gt_false (floor level : LogLevel) :
  LogLevel_gt floor level = false
  <-> (LogLevel_int floor <= LogLevel_int level)%Z.
Proof. unfold LogLevel_gt. rewrite Z.gtb_ltb, Z.ltb_ge. reflexivity. Qed.

Lemma LogLevel_gt_true (floor level : LogLevel) :
  LogLevel_gt floor level = true
  <-> (LogLevel_int level < LogLevel_int floor)%Z.
Proof. unfold LogLevel_gt. rewrite Z.gtb_ltb, Z.ltb_lt. reflexivity. Qed.

(** A file logger whose floor is above the level of the method does
    nothing. *)
Lemma CFileLogger_call_skip (m : Method) (this : CFileLogger)
    (message : string) (t : list Event) :
  LogLevel_gt (m_logLevel this) (Method_level m) = true ->
  CFileLogger_call m this message t = (this, t).
Proof.
  intros H. destruct m; simpl in *;
    unfold CFileLogger_DebugLog, CFileLogger_InfoLog, CFileLogger_ErrorLog;
    now rewrite H.
Qed.

(** Otherwise it takes the lock, writes, reopens unless the method is
    [DebugLog], and releases the lock. *)
Lemma CFileLogger_call_run (m : Method) (this : CFileLogger)
    (message : string) (t : list Event) :
  LogLevel_gt (m_logLevel this) (Method_level m) = false ->
  let line := CFileLogger_log_message m message in
  let writes :=
    (map (fun ofs => EvWrite ofs line) (m_logFiles this)
     ++ map (fun fp => EvFputs fp line) (m_systemFiles this))%list in
  match m with
  | mDebugLog =>
      CFileLogger_call m this message t
      = (this, (t ++ [EvLock] ++ writes ++ [EvUnlock])%list)
  | _ =>
      exists opens : list Event,
        Forall2 (is_open_of ios_app) (m_logFilenames this) opens
        /\ CFileLogger_call m this message t
           = (mkFileLogger (m_logLevel this) (m_logFilenames this)
                (m_systemFiles this) (opened_paths opens),
              (t ++ [EvLock] ++ writes ++ map EvClose (m_logFiles this)
                 ++ opens ++ [EvUnlock])%list)
  end.
Proof.
  intros H line writes. destruct m; simpl in H |- *.
  - unfold CFileLogger_DebugLog. rewrite H. unfold bind, emit at 1.
    rewrite WriteToFiles_run. unfold emit, ret. subst writes line.
    now rewrite <- !app_assoc.
  - unfold CFileLogger_InfoLog. rewrite H. unfold bind, emit at 1.
    rewrite WriteToFiles_run.
    match goal with |- context [CFileLogger_ReopenFiles this ios_app ?t0] =>
      destruct (ReopenFiles_run this ios_app t0) as (opens & Hrun & Hall) end.
    exists opens. split; [exact Hall |]. rewrite Hrun. unfold emit, ret.
    subst writes line. now rewrite <- !app_assoc.
  - unfold CFileLogger_ErrorLog. rewrite H. unfold bind, emit at 1.
    rewrite WriteToFiles_run.
    match goal with |- context [CFileLogger_ReopenFiles this ios_app ?t0] =>
      destruct (ReopenFiles_run this ios_app t0) as (opens & Hrun & Hall) end.
    exists opens. split; [exact Hall |]. rewrite Hrun. unfold emit, ret.
    subst writes line. now rewrite <- !app_assoc.
Qed.

Lemma CSystemLogger_call_skip (m : Method) (floor : LogLevel)
    (message : string) (t : list Event) :
  LogLevel_gt floor (Method_level m) = true ->
  CSystemLogger_call m floor message t = (tt, t).
Proof.
  intros H. destruct m; simpl in *;
    unfold CSystemLogger_DebugLog, CSystemLogger_InfoLog, CSystemLogger_ErrorLog;
    now rewrite H.
Qed.

Lemma CSystemLogger_call_run (m : Method) (floor : LogLevel)
    (message : string) (t : list Event) :
  LogLevel_gt floor (Method_level m) = false ->
  CSystemLogger_call m floor message t
  = (tt, (t ++ [EvSyslog (Method_priority m)
                  (CSystemLogger_log_message m message)])%list).
Proof.
  intros H. destruct m; simpl in *;
    unfold CSystemLogger_DebugLog, CSystemLogger_InfoLog, CSystemLogger_ErrorLog;
    now rewrite H.
Qed.

Lemma app_neq_self {A} (t evs : list A) : evs <> [] -> (t ++ evs)%list <> t.
Proof.
  intros Hne Heq. apply Hne.
  apply (f_equal (@List.length A)) in Heq. rewrite length_app in Heq.
  destruct evs; [reflexivity | simpl in Heq; lia].
Qed.

Lemma CFileLogger_call_emits (m : Method) (this : CFileLogger)
    (message : string) (t : list Event) :
  LogLevel_gt (m_logLevel this) (Method_level m) = false ->
  snd (CFileLogger_call m this message t) <> t.
Proof.
  intros H. pose proof (CFileLogger_call_run m this message t H) as Hrun.
  cbv zeta in Hrun. destruct m.
  - rewrite Hrun. simpl. now apply app_neq_self.
  - destruct Hrun as (opens & _ & Hrun). rewrite Hrun. simpl.
    now apply app_neq_self.
  - destruct Hrun as (opens & _ & Hrun). rewrite Hrun. simpl.
    now apply app_neq_self.
Qed.

(** With a message of at most [MAX_LOG_LENGTH - 1] characters the buffers
    of the sinks hold the whole line. *)
Lemma CFileLogger_log_message_full (m : Method) (message : string) :
  String.length message < MAX_LOG_LENGTH ->
  CFileLogger_log_message m message
  = match m with
    | mDebugLog => "[Debug] " ++ message ++ Str.nl
    | mInfoLog => "[Info] " ++ message ++ Str.nl
    | mErrorLog => "[Error] " ++ message ++ Str.nl
    end.
Proof.
  intros H. unfold CFileLogger_log_message, Printf.snprintf.
  destruct m; unfold CFileLogger_format, CFileLogger_sizeof_log_message;
    rewrite ?expand_Debug_nl, ?expand_Info_nl, ?expand_Error_nl;
    apply take_all; rewrite !length_append; simpl; lia.
Qed.

Lemma CSystemLogger_log_message_full (m : Method) (message : string) :
  String.length message < MAX_LOG_LENGTH ->
  CSystemLogger_log_message m message
  = match m with
    | mDebugLog => "[Debug] " ++ message
    | mInfoLog => "[Info] " ++ message ++ Str.nl
    | mErrorLog => "[Error] " ++ message ++ Str.nl
    end.
Proof.
  intros H. unfold CSystemLogger_log_message, Printf.snprintf.
  destruct m; unfold CSystemLogger_format, CSystemLogger_sizeof_log_message;
    rewrite ?expand_Debug, ?expand_Info_nl, ?expand_Error_nl;
    apply take_all; rewrite !length_append; simpl; lia.
Qed.

(** The lines of the sinks written out: what [snprintf] leaves in the
    buffer of each method. *)
Lemma CFileLogger_log_message_explicit (m : Method) (message : string) :
  CFileLogger_log_message m message
  = match m with
    | mDebugLog =>
        Str.take (MAX_LOG_LENGTH + 8) ("[Debug] " ++ message ++ Str.nl)
    | mInfoLog =>
        Str.take (MAX_LOG_LENGTH + 7) ("[Info] " ++ message ++ Str.nl)
    | mErrorLog =>
        Str.take (MAX_LOG_LENGTH + 8) ("[Error] " ++ message ++ Str.nl)
    end.
Proof.
  unfold CFileLogger_log_message, Printf.snprintf.
  destruct m; unfold CFileLogger_format, CFileLogger_sizeof_log_message;
    rewrite ?expand_Debug_nl, ?expand_Info_nl, ?expand_Error_nl;
    f_equal; lia.
Qed.

Lemma CSystemLogger_event_explicit (m : Method) (message : string) :
  EvSyslog (Method_priority m) (CSystemLogger_log_message m message)
  = match m with
    | mDebugLog =>
        EvSyslog LOG_DEBUG
          (Str.take (MAX_LOG_LENGTH + 7) ("[Debug] " ++ message))
    | mInfoLog =>
        EvSyslog LOG_INFO
          (Str.take (MAX_LOG_LENGTH + 7) ("[Info] " ++ message ++ Str.nl))
    | mErrorLog =>
        EvSyslog LOG_ERR
          (Str.take (MAX_LOG_LENGTH + 8) ("[Error] " ++ message ++ Str.nl))
    end.
Proof.
  unfold CSystemLogger_log_message, Printf.snprintf.
  destruct m; unfold CSystemLogger_format, CSystemLogger_sizeof_log_message;
    rewrite ?expand_Debug, ?expand_Info_nl, ?expand_Error_nl;
    simpl Method_priority; do 2 f_equal; lia.
Qed.

(** *** The severity floor of the sinks *)

(** C1. A file logger and a system logger with floor [s] emit a message
    logged at level [l] exactly when [l >= s] for the values of the
    enumeration, the skip test being [m_logLevel > level].  To emit is, for
    the file logger, to take the lock and write the line of the message to
    every open handle and then to every pre-opened stream, and for the
    system logger to hand the line of the message to the system log with
    the priority of the level; the line is the prefix of the level, the
    message and the newline of the format, as far as the buffer of the
    method holds them: whole when the message has at most
    [MAX_LOG_LENGTH - 1] characters.  Below the floor the call does nothing
    at all: the object and the trace are unchanged. *)
Theorem severity_floor (m : Method) (this : CFileLogger) (floor : LogLevel)
    (message : string) (t : list Event) :
  (LogLevel_gt floor (Method_level m) = true
     <-> (LogLevel_int floor > LogLevel_int (Method_level m))%Z)
  /\ ((LogLevel_int (Method_level m) >= LogLevel_int (m_logLevel this))%Z
     <-> exists evs : list Event,
           snd (CFileLogger_call m this message t)
           = (t ++ [EvLock]
                ++ map (fun ofs =>
                          EvWrite ofs
                            match m with
                            | mDebugLog =>
                                Str.take (MAX_LOG_LENGTH + 8)
                                  ("[Debug] " ++ message ++ Str.nl)
                            | mInfoLog =>
                                Str.take (MAX_LOG_LENGTH + 7)
                                  ("[Info] " ++ message ++ Str.nl)
                            | mErrorLog =>
                                Str.take (MAX_LOG_LENGTH + 8)
                                  ("[Error] " ++ message ++ Str.nl)
                            end) (m_logFiles this)
                ++ map (fun fp =>
                          EvFputs fp
                            match m with
                            | mDebugLog =>
                                Str.take (MAX_LOG_LENGTH + 8)
                                  ("[Debug] " ++ message ++ Str.nl)
                            | mInfoLog =>
                                Str.take (MAX_LOG_LENGTH + 7)
                                  ("[Info] " ++ message ++ Str.nl)
                            | mErrorLog =>
                                Str.take (MAX_LOG_LENGTH + 8)
                                  ("[Error] " ++ message ++ Str.nl)
                            end) (m_systemFiles this)
                ++ evs)%list)
  /\ (CFileLogger_call m this message t = (this, t)
     <-> (LogLevel_int (Method_level m) < LogLevel_int (m_logLevel this))%Z)
  /\ ((LogLevel_int (Method_level m) >= LogLevel_int floor)%Z
     <-> CSystemLogger_call m floor message t
         = (tt,
            (t ++ [match m with
                   | mDebugLog =>
                       EvSyslog LOG_DEBUG
                         (Str.take (MAX_LOG_LENGTH + 7) ("[Debug] " ++ message))
                   | mInfoLog =>
                       EvSyslog LOG_INFO
                         (Str.take (MAX_LOG_LENGTH + 7)
                            ("[Info] " ++ message ++ Str.nl))
                   | mErrorLog =>
                       EvSyslog LOG_ERR
                         (Str.take (MAX_LOG_LENGTH + 8)
                            ("[Error] " ++ message ++ Str.nl))
                   end])%list))
  /\ (CSystemLogger_call m floor message t = (tt, t)
     <-> (LogLevel_int (Method_level m) < LogLevel_int floor)%Z)
  /\ (snd (CFileLogger_call m this message t) <> t
     <-> (LogLevel_int (Method_level m) >= LogLevel_int (m_logLevel this))%Z)
  /\ (snd (CSystemLogger_call m floor message t) <> t
     <-> (LogLevel_int (Method_level m) >= LogLevel_int floor)%Z)
  /\ (String.length message < MAX_LOG_LENGTH ->
      Str.take (MAX_LOG_LENGTH + 8) ("[Debug] " ++ message ++ Str.nl)
      = "[Debug] " ++ message ++ Str.nl
      /\ Str.take (MAX_LOG_LENGTH + 7) ("[Info] " ++ message ++ Str.nl)
         = "[Info] " ++ message ++ Str.nl
      /\ Str.take (MAX_LOG_LENGTH + 8) ("[Error] " ++ message ++ Str.nl)
         = "[Error] " ++ message ++ Str.nl
      /\ Str.take (MAX_LOG_LENGTH + 7) ("[Debug] " ++ message)
         = "[Debug] " ++ message).
Proof.
  split; [rewrite LogLevel_gt_true; lia |].
  (* the file logger *)
  assert (Hfile :
    ((LogLevel_int (Method_level m) >= LogLevel_int (m_logLevel this))%Z
     <-> exists evs : list Event,
           snd (CFileLogger_call m this message t)
           = (t ++ [EvLock]
                ++ map (fun ofs => EvWrite ofs (CFileLogger_log_message m message))
                     (m_logFiles this)
                ++ map (fun fp => EvFputs fp (CFileLogger_log_message m message))
                     (m_systemFiles this)
                ++ evs)%list)
    /\ (CFileLogger_call m this message t = (this, t)
       <-> (LogLevel_int (Method_level m) < LogLevel_int (m_logLevel this))%Z)
    /\ (snd (CFileLogger_call m this message t) <> t
       <-> (LogLevel_int (Method_level m) >= LogLevel_int (m_logLevel this))%Z)).
  { destruct (LogLevel_gt (m_logLevel this) (Method_level m)) eqn:Hf.
    - pose proof (CFileLogger_call_skip m this message t Hf) as Hskip.
      apply LogLevel_gt_true in Hf.
      split; [| split].
      + split; [lia |]. intros (evs & Hevs). exfalso.
        rewrite Hskip in Hevs. simpl in Hevs. symmetry in Hevs. revert Hevs.
        now apply app_neq_self.
      + split; [intros _; exact Hf | intros _; exact Hskip].
      + split; [| lia]. intros Hne. exfalso. apply Hne. now rewrite Hskip.
    - pose proof (CFileLogger_call_run m this message t Hf) as Hrun.
      pose proof (CFileLogger_call_emits m this message t Hf) as Hemits.
      cbv zeta in Hrun. apply LogLevel_gt_false in Hf.
      split; [| split].
      + split; [intros _ | lia]. destruct m.
        * exists [EvUnlock]. rewrite Hrun. simpl snd.
          now rewrite <- !app_assoc.
        * destruct Hrun as (opens & _ & Hrun).
          exists (map EvClose (m_logFiles this) ++ opens ++ [EvUnlock])%list.
          rewrite Hrun. simpl snd. now rewrite <- !app_assoc.
        * destruct Hrun as (opens & _ & Hrun).
          exists (map EvClose (m_logFiles this) ++ opens ++ [EvUnlock])%list.
          rewrite Hrun. simpl snd. now rewrite <- !app_assoc.
      + split; [| lia]. intros Hsame. exfalso. apply Hemits. now rewrite Hsame.
      + split; [lia | intros _; exact Hemits]. }
  (* the system logger *)
  assert (Hsys :
    ((LogLevel_int (Method_level m) >= LogLevel_int floor)%Z
     <-> CSystemLogger_call m floor message t
         = (tt, (t ++ [EvSyslog (Method_priority m)
                         (CSystemLogger_log_message m message)])%list))
    /\ (CSystemLogger_call m floor message t = (tt, t)
       <-> (LogLevel_int (Method_level m) < LogLevel_int floor)%Z)
    /\ (snd (CSystemLogger_call m floor message t) <> t
       <-> (LogLevel_int (Method_level m) >= LogLevel_int floor)%Z)).
  { destruct (LogLevel_gt floor (Method_level m)) eqn:Hs.
    - pose proof (CSystemLogger_call_skip m floor message t Hs) as Hskip.
      apply LogLevel_gt_true in Hs.
      split; [| split].
      + split; [lia |]. intros Hevs. exfalso.
        rewrite Hskip in Hevs. injection Hevs as Hevs. symmetry in Hevs.
        revert Hevs. now apply app_neq_self.
      + split; [intros _; exact Hs | intros _; exact Hskip].
      + split; [| lia]. intros Hne. exfalso. apply Hne. now rewrite Hskip.
    - pose proof (CSystemLogger_call_run m floor message t Hs) as Hrun.
      apply LogLevel_gt_false in Hs.
      split; [| split].
      + split; [intros _; exact Hrun | lia].
      + split; [| lia]. intros Hsame. exfalso. rewrite Hrun in Hsame.
        injection Hsame as Hsame. revert Hsame. now apply app_neq_self.
      + split; [lia |]. intros _. rewrite Hrun. simpl.
        now apply app_neq_self. }
  rewrite CFileLogger_log_message_explicit in Hfile.
  rewrite CSystemLogger_event_explicit in Hsys.
  destruct Hfile as (Hf1 & Hf2 & Hf3). destruct Hsys as (Hs1 & Hs2 & Hs3).
  split; [exact Hf1 |]. split; [exact Hf2 |]. split; [exact Hs1 |].
  split; [exact Hs2 |]. split; [exact Hf3 |]. split; [exact Hs3 |].
  intros Hlen. repeat split; apply take_all; rewrite !length_append; simpl; lia.
Qed.

(** *** Writing and reopening *)

(** C7. A file logger whose floor admits the message takes its lock,
    writes the prefixed line to every open handle and then to every
    pre-opened stream, and then: for [InfoLog] and [ErrorLog], closes every
    open handle and attempts to open every configured path, in order, in
    append mode, keeping the handles that opened (the pre-opened streams
    are not touched by this step and stay as they were); for [DebugLog],
    nothing more: no handle is closed or reopened and the object is
    unchanged. *)
Theorem FileLogger_write_then_reopen (m : Method) (this : CFileLogger)
    (message : string) (t : list Event) :
  (LogLevel_int (m_logLevel this) <= LogLevel_int (Method_level m))%Z ->
  let line := CFileLogger_log_message m message in
  let writes :=
    (map (fun ofs => EvWrite ofs line) (m_logFiles this)
     ++ map (fun fp => EvFputs fp line) (m_systemFiles this))%list in
  match m with
  | mDebugLog =>
      CFileLogger_call m this message t
      = (this, (t ++ [EvLock] ++ writes ++ [EvUnlock])%list)
  | _ =>
      exists opens : list Event,
        Forall2 (is_open_of ios_app) (m_logFilenames this) opens
        /\ CFileLogger_call m this message t
           = (mkFileLogger (m_logLevel this) (m_logFilenames this)
                (m_systemFiles this) (opened_paths opens),
              (t ++ [EvLock] ++ writes ++ map EvClose (m_logFiles this)
                 ++ opens ++ [EvUnlock])%list)
  end.
Proof.
  intros H. apply CFileLogger_call_run. now apply LogLevel_gt_false.
Qed.

(** *** The staging buffers *)

(** C10. For a message of at most [MAX_LOG_LENGTH - 1] characters, at each
    of the six [snprintf] calls of the sinks the buffer receives the whole
    expansion (prefix, message, newline where the format has one), and with
    the terminator it leaves exactly as many bytes unused as the message is
    shorter than [MAX_LOG_LENGTH - 1]: none for the longest message. *)
Theorem staging_buffers_fit (m : Method) (message : string) :
  String.length message < MAX_LOG_LENGTH ->
  (CFileLogger_log_message m message
     = Printf.expand (CFileLogger_format m) [ArgStr message]
   /\ CFileLogger_log_message m message
     = match m with
       | mDebugLog => "[Debug] " ++ message ++ Str.nl
       | mInfoLog => "[Info] " ++ message ++ Str.nl
       | mErrorLog => "[Error] " ++ message ++ Str.nl
       end
   /\ String.length (CFileLogger_log_message m message) + 1
       + (MAX_LOG_LENGTH - 1 - String.length message)
     = CFileLogger_sizeof_log_message m)
  /\ (CSystemLogger_log_message m message
     = Printf.expand (CSystemLogger_format m) [ArgStr message]
   /\ CSystemLogger_log_message m message
     = match m with
       | mDebugLog => "[Debug] " ++ message
       | mInfoLog => "[Info] " ++ message ++ Str.nl
       | mErrorLog => "[Error] " ++ message ++ Str.nl
       end
   /\ String.length (CSystemLogger_log_message m message) + 1
       + (MAX_LOG_LENGTH - 1 - String.length message)
     = CSystemLogger_sizeof_log_message m).
Proof.
  intros H.
  rewrite (CFileLogger_log_message_full m message H).
  rewrite (CSystemLogger_log_message_full m message H).
  destruct m; unfold CFileLogger_format, CSystemLogger_format,
    CFileLogger_sizeof_log_message, CSystemLogger_sizeof_log_message;
    rewrite ?expand_Debug, ?expand_Debug_nl, ?expand_Info_nl, ?expand_Error_nl;
    rewrite !length_append; simpl; repeat split; lia.
Qed.

(** *** The string handed to the system log *)

(** C9, as the code has it.  For a message of at most
    [MAX_LOG_LENGTH - 1] characters that the floor of a system logger
    admits, the string handed to the platform's logging call is the prefix
    of the level followed by the message, with no newline for [DebugLog]
    and with a newline for [InfoLog] and [ErrorLog]. *)
Theorem SystemLogger_string (m : Method) (floor : LogLevel)
    (message : string) (t : list Event) :
  String.length message < MAX_LOG_LENGTH ->
  (LogLevel_int floor <= LogLevel_int (Method_level m))%Z ->
  CSystemLogger_call m floor message t
  = (tt, (t ++ [EvSyslog (Method_priority m)
                  match m with
                  | mDebugLog => "[Debug] " ++ message
                  | mInfoLog => "[Info] " ++ message ++ Str.nl
                  | mErrorLog => "[Error] " ++ message ++ Str.nl
                  end])%list).
Proof.
  intros Hlen Hfloor. apply LogLevel_gt_false in Hfloor.
  rewrite (CSystemLogger_call_run m floor message t Hfloor).
  now rewrite (CSystemLogger_log_message_full m message Hlen).
Qed.

(* ===================================================================== *)
(** ** The dispatcher *)
(* ===================================================================== *)

(** A method of [CMultiLogger] is its loop. *)
Lemma CLogger_call_MultiLogger (m : Method) (loggers : list CLogger)
    (message : string) (t : list Event) :
  CLogger_call m (MultiLogger loggers) message t
  = (let (loggers', t') := CMultiLogger_each m loggers message t in
     (MultiLogger loggers', t')).
Proof.
  simpl. unfold bind at 1.
  assert (Heach : forall ls t0,
      (fix each (ls : list CLogger) {struct ls} : IO (list CLogger) :=
         match ls with
         | [] => ret []
         | logger :: rest =>
             let* logger' := CLogger_call m logger message in
             let* rest' := each rest in ret (logger' :: rest')
         end) ls t0 = CMultiLogger_each m ls message t0).
  { induction ls as [|l ls IH]; intros t0; [reflexivity |].
    simpl. unfold bind. destruct (CLogger_call m l message t0) as [l' t1].
    now rewrite IH. }
  rewrite Heach. now destruct (CMultiLogger_each m loggers message t).
Qed.

Lemma CMultiLogger_each_cons (m : Method) (logger : CLogger)
    (rest : list CLogger) (message : string) (t : list Event) :
  CMultiLogger_each m (logger :: rest) message t
  = (let (logger', t1) := CLogger_call m logger message t in
     let (rest', t2) := CMultiLogger_each m rest message t1 in
     (logger' :: rest', t2)).
Proof.
  simpl. unfold bind. destruct (CLogger_call m logger message t) as [l' t1].
  now destruct (CMultiLogger_each m rest message t1).
Qed.

Lemma is_open_of_app_no_truncate (filenames : list string) (opens : list Event) :
  Forall2 (is_open_of ios_app) filenames opens -> Forall no_truncate opens.
Proof.
  induction 1 as [|f e fs es [ok He] _ IH]; constructor; [now subst | exact IH].
Qed.

Lemma Forall_map_intro {A B} (P : B -> Prop) (f : A -> B) (l : list A) :
  (forall x, P (f x)) -> Forall P (map f l).
Proof. intros H. induction l; simpl; constructor; auto. Qed.

(** A call only appends to the trace, and what it appends opens no file in
    the truncating mode: that is left to the constructor of a file logger. *)
Lemma CLogger_call_extends (m : Method) (logger : CLogger) :
  forall (message : string) (t : list Event),
  exists evs : list Event,
    snd (CLogger_call m logger message t) = (t ++ evs)%list
    /\ Forall no_truncate evs.
Proof.
  induction logger as [loggers IH| |f|level] using CLogger_nested_ind;
    intros message t.
  - rewrite CLogger_call_MultiLogger.
    assert (Hall : exists evs, snd (CMultiLogger_each m loggers message t)
                               = (t ++ evs)%list /\ Forall no_truncate evs).
    { revert t; induction IH as [|l ls Hl _ IHls]; intros t.
      - exists []. simpl. unfold ret. simpl. now rewrite app_nil_r.
      - rewrite CMultiLogger_each_cons.
        destruct (Hl message t) as (e1 & H1 & F1).
        destruct (CLogger_call m l message t) as [l' t1]. simpl in H1. subst t1.
        destruct (IHls (t ++ e1)%list) as (e2 & H2 & F2).
        destruct (CMultiLogger_each m ls message (t ++ e1)%list) as [ls' t2].
        simpl in H2 |- *. subst t2. exists (e1 ++ e2)%list.
        split; [now rewrite app_assoc | now apply Forall_app]. }
    destruct Hall as (evs & H & F).
    destruct (CMultiLogger_each m loggers message t) as [ls' t'].
    now exists evs.
  - destruct m; simpl; unfold bind, CConsoleErrorLogger_DebugLog,
      CConsoleErrorLogger_InfoLog, CConsoleErrorLogger_ErrorLog, ret, emit; simpl.
    + exists []. now rewrite app_nil_r.
    + exists []. now rewrite app_nil_r.
    + eexists. split; [reflexivity |]. now repeat constructor.
  - simpl. unfold bind, ret.
    destruct (LogLevel_gt (m_logLevel f) (Method_level m)) eqn:Hf.
    + rewrite (CFileLogger_call_skip m f message t Hf). simpl.
      exists []. now rewrite app_nil_r.
    + pose proof (CFileLogger_call_run m f message t Hf) as Hrun.
      cbv zeta in Hrun. destruct m.
      * rewrite Hrun. simpl. eexists. split; [reflexivity |].
        constructor; [exact I |]. apply Forall_app. split.
        { apply Forall_app. split; now apply Forall_map_intro. }
        now repeat constructor.
      * destruct Hrun as (opens & Hall & Hrun). rewrite Hrun. simpl.
        eexists. split; [reflexivity |].
        constructor; [exact I |]. rewrite !Forall_app. repeat split.
        1-3: now apply Forall_map_intro.
        { eapply is_open_of_app_no_truncate; eassumption. }
        now repeat constructor.
      * destruct Hrun as (opens & Hall & Hrun). rewrite Hrun. simpl.
        eexists. split; [reflexivity |].
        constructor; [exact I |]. rewrite !Forall_app. repeat split.
        1-3: now apply Forall_map_intro.
        { eapply is_open_of_app_no_truncate; eassumption. }
        now repeat constructor.
  - simpl. unfold bind, ret.
    destruct (LogLevel_gt level (Method_level m)) eqn:Hs.
    + rewrite (CSystemLogger_call_skip m level message t Hs). simpl.
      exists []. now rewrite app_nil_r.
    + rewrite (CSystemLogger_call_run m level message t Hs). simpl.
      eexists. split; [reflexivity |]. now repeat constructor.
Qed.

(* ===================================================================== *)
(** ** Resolving the level, and the factory *)
(* ===================================================================== *)

Lemma logLevelByString_None (token : string) :
  token ∉ ["debug"; "info"; "error"; "all"] ->
  logLevelByString !! token = None.
Proof.
  intros H. rewrite !not_elem_of_cons in H.
  destruct H as (H1 & H2 & H3 & H4 & _).
  unfold logLevelByString.
  rewrite !lookup_insert_ne by congruence. apply lookup_empty.
Qed.

Lemma logLevelByString_Some (token : string) (level : LogLevel) :
  logLevelByString !! token = Some level ->
  token ∈ ["debug"; "info"; "error"; "all"].
Proof.
  intros H.
  destruct (decide (token ∈ ["debug"; "info"; "error"; "all"])) as [Hin|Hout];
    [exact Hin |].
  rewrite (logLevelByString_None token Hout) in H. discriminate.
Qed.

Lemma GetLogLevel_ok (config : gmap string string) (st : State)
    (level : LogLevel) :
  fst (GetLogLevel config st) = (OKAY, level) ->
  GetLogLevel config st = ((OKAY, level), st).
Proof.
  unfold GetLogLevel.
  destruct (logLevelByString !! _) as [lv|].
  - simpl. now intros [= ->].
  - destruct (ErrorLog _ _ st) as [b st']. simpl. discriminate.
Qed.

Lemma GetLogLevel_fail (config : gmap string string) (st : State) :
  let token := Util.ToLower (ValueAsDefault config "LogLevel" "info") in
  logLevelByString !! token = None ->
  GetLogLevel config st
  = ((FAIL, Info),
     snd (ErrorLog "Invalid log level: %s" [ArgStr (Str.c_str token)] st)).
Proof.
  intros token H. unfold GetLogLevel. fold token. rewrite H.
  now destruct (ErrorLog _ _ st).
Qed.

Lemma count_elem_of (x : string) (s : StdSet.t) :
  (0 <? StdSet.count x s)%nat = bool_decide (x ∈ s).
Proof.
  induction s as [|y s IH]; [reflexivity |].
  cbn [StdSet.count]. destruct (String.eqb_spec x y) as [->|Hne].
  - rewrite bool_decide_eq_true_2 by apply list_elem_of_here. reflexivity.
  - rewrite IH. apply bool_decide_ext. rewrite elem_of_cons.
    split; [auto | intros [?|?]; [contradiction | assumption]].
Qed.

Lemma collect_systemFiles_spec (destinations : StdSet.t) :
  collect_systemFiles destinations
  = ((if bool_decide ("stdout" ∈ destinations) then [stdout] else [])
     ++ (if bool_decide ("stderr" ∈ destinations) then [stderr] else []))%list.
Proof.
  unfold collect_systemFiles. rewrite !count_elem_of.
  now destruct (bool_decide ("stdout" ∈ destinations)),
               (bool_decide ("stderr" ∈ destinations)).
Qed.

(** *** The two sets of the factory *)

Lemma StdSet_lt_trans (a b c : string) :
  StdSet.lt a b -> StdSet.lt b c -> StdSet.lt a c.
Proof.
  unfold StdSet.lt. intros Hab Hbc.
  apply OrderedTypeEx.String_as_OT.cmp_lt.
  apply OrderedTypeEx.String_as_OT.cmp_lt in Hab, Hbc.
  eapply OrderedTypeEx.String_as_OT.lt_trans; eassumption.
Qed.

Lemma StdSet_lt_irrefl (a : string) : ~ StdSet.lt a a.
Proof.
  unfold StdSet.lt. intros H.
  assert (Heq : String.compare a a = Eq)
    by now apply OrderedTypeEx.String_as_OT.cmp_eq.
  congruence.
Qed.

Lemma StdSet_insert_elem_of (x y : string) (s : StdSet.t) :
  x ∈ StdSet.insert y s <-> x = y \/ x ∈ s.
Proof.
  induction s as [|a s IH]; simpl.
  - rewrite list_elem_of_singleton, elem_of_nil. tauto.
  - destruct (String.compare y a) eqn:Hc.
    + apply String.compare_eq_iff in Hc. subst a.
      rewrite elem_of_cons. tauto.
    + rewrite elem_of_cons. tauto.
    + rewrite !elem_of_cons, IH. tauto.
Qed.

Lemma StdSet_insert_ordered (y : string) (s : StdSet.t) :
  StdSet.ordered s -> StdSet.ordered (StdSet.insert y s).
Proof.
  unfold StdSet.ordered. induction 1 as [|a s Hs IH Hall]; simpl.
  - repeat constructor.
  - destruct (String.compare y a) eqn:Hc.
    + now constructor.
    + constructor; [now constructor |].
      constructor; [exact Hc |].
      eapply Forall_impl; [exact Hall |].
      intros z Hz. now apply (StdSet_lt_trans y a z).
    + constructor; [exact IH |].
      apply Forall_forall. intros z Hz.
      apply StdSet_insert_elem_of in Hz. destruct Hz as [->|Hz].
      * unfold StdSet.lt. rewrite String.compare_antisym, Hc. reflexivity.
      * rewrite Forall_forall in Hall. now apply Hall.
Qed.

Lemma StdSet_ordered_NoDup (s : StdSet.t) : StdSet.ordered s -> NoDup s.
Proof.
  induction 1 as [|a s Hs IH Hall]; [apply NoDup_nil_2 |].
  apply NoDup_cons_2; [| exact IH].
  intros Hin. rewrite Forall_forall in Hall.
  exact (StdSet_lt_irrefl a (Hall a Hin)).
Qed.

Lemma supportedDestinations_elem_of (x : string) :
  x ∈ supportedDestinations <-> x = "stdout" \/ x = "stderr" \/ x = "syslog".
Proof.
  change supportedDestinations with ["stderr"; "stdout"; "syslog"].
  rewrite !elem_of_cons, elem_of_nil. tauto.
Qed.

Lemma string_empty_true (x : string) :
  string_empty x = true <-> x = EmptyString.
Proof. destruct x; simpl; split; congruence. Qed.

(** One turn of the loop over [outputs]. *)
Lemma classify_destinations (sets : StdSet.t * StdSet.t) (output x : string) :
  x ∈ fst (classify sets output)
  <-> x ∈ fst sets
      \/ (x = Util.TrimWhiteSpace (Util.ToLower output)
          /\ x ∈ supportedDestinations).
Proof.
  destruct sets as [d f]. unfold classify. rewrite count_elem_of.
  destruct (bool_decide_reflect
              (Util.TrimWhiteSpace (Util.ToLower output) ∈ supportedDestinations))
    as [Hin|Hout]; simpl.
  - rewrite StdSet_insert_elem_of. split; [intros [->|?]; auto | tauto].
  - destruct (negb _); simpl; split; auto; intros [?|[-> ?]]; tauto.
Qed.

Lemma classify_filenames (sets : StdSet.t * StdSet.t) (output x : string) :
  x ∈ snd (classify sets output)
  <-> x ∈ snd sets
      \/ (x = Util.TrimWhiteSpace output
          /\ (Util.TrimWhiteSpace (Util.ToLower output) ∉ supportedDestinations)
          /\ Util.TrimWhiteSpace (Util.ToLower output) <> EmptyString).
Proof.
  destruct sets as [d f]. unfold classify. rewrite count_elem_of.
  destruct (bool_decide_reflect
              (Util.TrimWhiteSpace (Util.ToLower output) ∈ supportedDestinations))
    as [Hin|Hout]; simpl.
  - tauto.
  - destruct (string_empty _) eqn:He; simpl.
    + apply string_empty_true in He. tauto.
    + rewrite StdSet_insert_elem_of.
      assert (Util.TrimWhiteSpace (Util.ToLower output) <> EmptyString).
      { intros H0. apply string_empty_true in H0. congruence. }
      tauto.
Qed.

Lemma classify_ordered (sets : StdSet.t * StdSet.t) (output : string) :
  StdSet.ordered (fst sets) /\ StdSet.ordered (snd sets) ->
  StdSet.ordered (fst (classify sets output))
  /\ StdSet.ordered (snd (classify sets output)).
Proof.
  destruct sets as [d f]. unfold classify. simpl. intros [Hd Hf].
  destruct (_ <? _)%nat; simpl;
    [split; [now apply StdSet_insert_ordered | exact Hf] |].
  destruct (negb _); simpl;
    [split; [exact Hd | now apply StdSet_insert_ordered] | now split].
Qed.

(** The whole loop: which strings end up in [destinations] and which in
    [filenames], and that neither set holds a string twice. *)
Lemma parse_outputs_spec (outputs : list string) :
  (forall x : string,
     x ∈ fst (parse_outputs outputs)
     <-> x ∈ supportedDestinations
         /\ exists output, output ∈ outputs
              /\ x = Util.TrimWhiteSpace (Util.ToLower output))
  /\ (forall x : string,
       x ∈ snd (parse_outputs outputs)
       <-> exists output, output ∈ outputs
             /\ x = Util.TrimWhiteSpace output
             /\ (Util.TrimWhiteSpace (Util.ToLower output)
                   ∉ supportedDestinations)
             /\ Util.TrimWhiteSpace (Util.ToLower output) <> EmptyString)
  /\ NoDup (fst (parse_outputs outputs))
  /\ NoDup (snd (parse_outputs outputs)).
Proof.
  unfold parse_outputs.
  assert (Hgen : forall sets,
    StdSet.ordered (fst sets) /\ StdSet.ordered (snd sets) ->
    (forall x, x ∈ fst (fold_left classify outputs sets)
       <-> x ∈ fst sets
           \/ (x ∈ supportedDestinations
               /\ exists output, output ∈ outputs
                    /\ x = Util.TrimWhiteSpace (Util.ToLower output)))
    /\ (forall x, x ∈ snd (fold_left classify outputs sets)
         <-> x ∈ snd sets
             \/ exists output, output ∈ outputs
                  /\ x = Util.TrimWhiteSpace output
                  /\ (Util.TrimWhiteSpace (Util.ToLower output)
                        ∉ supportedDestinations)
                  /\ Util.TrimWhiteSpace (Util.ToLower output) <> EmptyString)
    /\ StdSet.ordered (fst (fold_left classify outputs sets))
    /\ StdSet.ordered (snd (fold_left classify outputs sets))).
  { induction outputs as [|o outputs IH]; intros sets Hord; simpl.
    - split; [| split; [| exact Hord]]; intros x; split; auto.
      + intros [?|(_ & o & Ho & _)]; [assumption | now apply elem_of_nil in Ho].
      + intros [?|(o & Ho & _)]; [assumption | now apply elem_of_nil in Ho].
    - destruct (IH (classify sets o) (classify_ordered sets o Hord))
        as (Hd & Hf & Hod & Hof).
      split; [| split; [| now split]]; intros x.
      + rewrite Hd, classify_destinations. split.
        * intros [[?|[-> ?]]|(? & o' & ? & ?)]; auto.
          -- right. split; [assumption |]. exists o.
             split; [apply list_elem_of_here | reflexivity].
          -- right. split; [assumption |]. exists o'.
             split; [now apply list_elem_of_further | assumption].
        * intros [?|(Hs & o' & Ho' & ->)]; auto.
          apply elem_of_cons in Ho'. destruct Ho' as [->|Ho']; auto.
          right. split; [assumption |]. now exists o'.
      + rewrite Hf, classify_filenames. split.
        * intros [[?|(-> & ? & ?)]|(o' & ? & ?)]; auto.
          -- right. exists o. split; [apply list_elem_of_here | auto].
          -- right. exists o'. split; [now apply list_elem_of_further | auto].
        * intros [?|(o' & Ho' & -> & ? & ?)]; auto.
          apply elem_of_cons in Ho'. destruct Ho' as [->|Ho']; auto.
          right. now exists o'. }
  destruct (Hgen (StdSet.empty, StdSet.empty)) as (Hd & Hf & Hod & Hof).
  { split; constructor. }
  split; [| split; [| split; now apply StdSet_ordered_NoDup]]; intros x.
  - rewrite Hd. simpl. rewrite elem_of_nil. tauto.
  - rewrite Hf. simpl. rewrite elem_of_nil. tauto.
Qed.

Lemma collect_systemFiles_NoDup (destinations : StdSet.t) :
  NoDup (collect_systemFiles destinations).
Proof.
  rewrite collect_systemFiles_spec.
  destruct (bool_decide _), (bool_decide _); simpl;
    repeat first [apply NoDup_nil_2 | apply NoDup_cons_2];
    rewrite ?elem_of_cons, ?elem_of_nil; intros H; decompose [or] H;
    first [discriminate | contradiction].
Qed.

(** What the factory returns once the level is resolved. *)
Lemma CreateLogger_ok (config : gmap string string) (st : State)
    (level : LogLevel) :
  fst (GetLogLevel config st) = (OKAY, level) ->
  let parsed :=
    parse_outputs
      (Util.Split (ValueAsDefault config "LogOutput" EmptyString) ","%char) in
  let filenames := snd parsed in
  let systemFiles := collect_systemFiles (fst parsed) in
  exists opens : list Event,
    Forall2 (is_open_of ios_out) filenames opens
    /\ CreateLogger config st
       = (Some (MultiLogger
                  ([ConsoleErrorLogger]
                   ++ match filenames, systemFiles with
                      | [], [] => []
                      | _, _ =>
                          [FileLogger
                             (mkFileLogger level filenames systemFiles
                                (opened_paths opens))]
                      end
                   ++ (if bool_decide ("syslog" ∈ fst parsed)
                       then [SystemLogger level] else []))%list),
          mkState (s_Logger st) (trace st ++ opens)%list).
Proof.
  intros H parsed filenames systemFiles.
  apply GetLogLevel_ok in H. unfold CreateLogger. rewrite H. simpl fst. simpl snd.
  change (negb (Bool.eqb OKAY OKAY)) with false. cbv iota.
  fold parsed. subst filenames systemFiles.
  destruct parsed as [destinations fnames]. cbn [fst snd].
  rewrite count_elem_of. set (systemFiles := collect_systemFiles destinations).
  destruct fnames as [|fn fns]; [destruct systemFiles as [|fp fps] |].
  - exists []. split; [constructor |]. simpl. rewrite app_nil_r.
    now destruct (bool_decide _).
  - exists []. split; [constructor |]. simpl.
    unfold CFileLogger_new, CFileLogger_ReopenFiles, bind, ret; simpl.
    rewrite app_nil_r. now destruct (bool_decide _).
  - cbn [list_empty negb orb]. unfold CFileLogger_new.
    destruct (ReopenFiles_run (mkFileLogger level (fn :: fns) systemFiles [])
                ios_out (trace st)) as (opens & Hrun & Hall).
    simpl in Hrun, Hall. rewrite Hrun. exists opens. split; [exact Hall |].
    simpl. now destruct (bool_decide _).
Qed.

Lemma config_of_LogLevel (logLevel logOutput dflt : string) :
  ValueAsDefault (config_of logLevel logOutput) "LogLevel" dflt = logLevel.
Proof. unfold ValueAsDefault, config_of. now rewrite lookup_insert_eq. Qed.

Lemma config_of_LogOutput (logLevel logOutput dflt : string) :
  ValueAsDefault (config_of logLevel logOutput) "LogOutput" dflt = logOutput.
Proof.
  unfold ValueAsDefault, config_of.
  rewrite lookup_insert_ne by discriminate. now rewrite lookup_insert_eq.
Qed.

Lemma written_to_app (fp : FILE) (a b : list Event) :
  written_to fp (a ++ b) = (written_to fp a ++ written_to fp b)%list.
Proof.
  induction a as [|e a IH]; [reflexivity |].
  destruct e as [fp' str| | | | | |]; simpl; try exact IH.
  destruct fp, fp'; simpl; now rewrite IH.
Qed.

(** C2. Once the level is resolved, the dispatcher the factory returns
    holds, in this order: a console logger; then one file logger exactly
    when the set of file names or the list of pre-opened streams is not
    empty, with every file name of the set, with the streams [stdout] then
    [stderr] (each one exactly when its keyword is in the set of
    destinations) and with the resolved level as floor; then one system
    logger, with the resolved level as floor, exactly when "syslog" is in
    the set of destinations.  The two sets are those of the destination
    list: a keyword is in [destinations] when a token is that keyword once
    lower-cased and trimmed, and the file names are the trimmed tokens that
    are neither a keyword nor empty. *)
Theorem CreateLogger_sinks (config : gmap string string) (st : State)
    (level : LogLevel) :
  fst (GetLogLevel config st) = (OKAY, level) ->
  let outputs :=
    Util.Split (ValueAsDefault config "LogOutput" EmptyString) ","%char in
  let destinations := fst (parse_outputs outputs) in
  let filenames := snd (parse_outputs outputs) in
  let systemFiles :=
    ((if bool_decide ("stdout" ∈ destinations) then [stdout] else [])
     ++ (if bool_decide ("stderr" ∈ destinations) then [stderr] else []))%list in
  (exists opens : list Event,
     Forall2 (is_open_of ios_out) filenames opens
     /\ fst (CreateLogger config st)
        = Some (MultiLogger
                  ([ConsoleErrorLogger]
                   ++ match filenames, systemFiles with
                      | [], [] => []
                      | _, _ =>
                          [FileLogger
                             (mkFileLogger level filenames systemFiles
                                (opened_paths opens))]
                      end
                   ++ (if bool_decide ("syslog" ∈ destinations)
                       then [SystemLogger level] else []))%list))
  /\ (forall keyword : string,
       keyword ∈ destinations
       <-> keyword ∈ ["stdout"; "stderr"; "syslog"]
           /\ exists output, output ∈ outputs
                /\ keyword = Util.TrimWhiteSpace (Util.ToLower output))
  /\ (forall filename : string,
       filename ∈ filenames
       <-> exists output, output ∈ outputs
             /\ filename = Util.TrimWhiteSpace output
             /\ (Util.TrimWhiteSpace (Util.ToLower output)
                   ∉ ["stdout"; "stderr"; "syslog"])
             /\ Util.TrimWhiteSpace (Util.ToLower output) <> EmptyString).
Proof.
  intros H outputs destinations filenames systemFiles.
  destruct (parse_outputs_spec outputs) as (Hd & Hf & _ & _).
  assert (Hsup : forall x, x ∈ supportedDestinations
                           <-> x ∈ ["stdout"; "stderr"; "syslog"]).
  { intros x. rewrite supportedDestinations_elem_of.
    rewrite !elem_of_cons, elem_of_nil. tauto. }
  split; [| split].
  - destruct (CreateLogger_ok config st level H) as (opens & Hall & Hrun).
    exists opens. split; [exact Hall |]. rewrite Hrun. simpl fst.
    subst systemFiles destinations. now rewrite <- collect_systemFiles_spec.
  - intros x. subst destinations. now rewrite Hd, Hsup.
  - intros x. subst filenames. rewrite Hf.
    split; intros (o & Ho & Hx & Hk & He); exists o;
      (split; [exact Ho |]); (split; [exact Hx |]); (split; [| exact He]);
      intros Hin; apply Hk; now apply Hsup.
Qed.

(** C3. When the lower-cased [LogLevel] string (["info"] when the key is
    absent) is none of "debug", "info", "error", "all", resolving the level
    yields [FAIL] and the factory returns no dispatcher; all it has done is
    the error report of the resolution, through the logger installed at
    that time (nothing at all when none is installed): no sink is
    constructed, and no file is opened in the truncating mode
    [std::ios::out] as the constructor of a file logger would do. *)
Theorem invalid_level_fails (config : gmap string string) (st : State) :
  Util.ToLower (ValueAsDefault config "LogLevel" "info")
    ∉ ["debug"; "info"; "error"; "all"] ->
  let token := Util.ToLower (ValueAsDefault config "LogLevel" "info") in
  fst (GetLogLevel config st) = (FAIL, Info)
  /\ CreateLogger config st
     = (None,
        snd (ErrorLog "Invalid log level: %s" [ArgStr (Str.c_str token)] st))
  /\ match s_Logger st with
     | None => CreateLogger config st = (None, st)
     | Some logger =>
         exists logger' evs,
           CreateLogger config st
           = (None, mkState (Some logger') (trace st ++ evs)%list)
           /\ Forall no_truncate evs
     end.
Proof.
  intros Hbad token.
  pose proof (GetLogLevel_fail config st (logLevelByString_None _ Hbad)) as Hget.
  cbv zeta in Hget. fold token in Hget.
  assert (Hcreate : CreateLogger config st
    = (None, snd (ErrorLog "Invalid log level: %s"
                    [ArgStr (Str.c_str token)] st))).
  { unfold CreateLogger. rewrite Hget. reflexivity. }
  split; [now rewrite Hget |]. split; [exact Hcreate |].
  rewrite Hcreate. unfold ErrorLog.
  destruct (s_Logger st) as [logger|]; [| reflexivity].
  simpl snd. unfold s_Logger_call.
  match goal with |- context [CLogger_call mErrorLog logger ?msg (trace st)] =>
    destruct (CLogger_call_extends mErrorLog logger msg (trace st))
      as (evs & Hext & Hno);
    destruct (CLogger_call mErrorLog logger msg (trace st)) as [logger' t'] end.
  simpl in Hext. subst t'. now exists logger', evs.
Qed.

(** C4. With no logger installed the entry points [DebugLog] and [InfoLog]
    do nothing, and [ErrorLog] does nothing and returns [FAIL]; with a
    logger installed [ErrorLog] forwards the formatted message to its
    [ErrorLog] method and returns [FAIL]: it returns [FAIL] in every
    state. *)
Theorem ErrorLog_always_fails (fmt : string) (args : list Arg)
    (logger : CLogger) (t : list Event) (st : State) :
  DebugLog fmt args (mkState None t) = mkState None t
  /\ InfoLog fmt args (mkState None t) = mkState None t
  /\ ErrorLog fmt args (mkState None t) = (FAIL, mkState None t)
  /\ ErrorLog fmt args (mkState (Some logger) t)
     = (FAIL,
        let (logger', t') :=
          CLogger_call mErrorLog logger
            (Printf.snprintf MAX_LOG_LENGTH fmt args) t in
        mkState (Some logger') t')
  /\ fst (ErrorLog fmt args st) = FAIL.
Proof.
  repeat split. unfold ErrorLog. now destruct (s_Logger st).
Qed.

(** *** Calls through the interface, class by class *)

Lemma CLogger_call_Console (m : Method) (message : string) (t : list Event) :
  CLogger_call m ConsoleErrorLogger message t
  = (ConsoleErrorLogger,
     match m with
     | mErrorLog => (t ++ [EvFputs stderr ("Error: " ++ message ++ Str.nl)%string])%list
     | _ => t
     end).
Proof. now destruct m. Qed.

Lemma CLogger_call_FileLogger (m : Method) (f : CFileLogger)
    (message : string) (t : list Event) :
  CLogger_call m (FileLogger f) message t
  = (let (f', t') := CFileLogger_call m f message t in (FileLogger f', t')).
Proof.
  simpl. unfold bind, ret. now destruct (CFileLogger_call m f message t).
Qed.

Lemma CLogger_call_SystemLogger (m : Method) (level : LogLevel)
    (message : string) (t : list Event) :
  CLogger_call m (SystemLogger level) message t
  = (SystemLogger level, snd (CSystemLogger_call m level message t)).
Proof.
  simpl. unfold bind, ret. now destruct (CSystemLogger_call m level message t).
Qed.

(** C6. For the dispatcher the factory builds from [LogLevel=error],
    [LogOutput=stderr] (a console logger, then a file logger with floor
    [Error] on the pre-opened stream [stderr]) and any format and
    arguments, [message] being the formatted message the entry point
    forwards: the entry points [DebugLog] and [InfoLog] do nothing, so
    nothing reaches [stderr]; the entry point [ErrorLog] writes exactly two
    lines to [stderr], "Error: <message>\n" from the console logger and
    "[Error] <message>\n" from the file logger. *)
Theorem error_only_on_stderr (fmt : string) (args : list Arg) (st : State) :
  0 < MAX_LOG_LENGTH ->
  let dispatcher :=
    MultiLogger
      [ConsoleErrorLogger; FileLogger (mkFileLogger Error [] [stderr] [])] in
  let message := Printf.snprintf MAX_LOG_LENGTH fmt args in
  let console_line := "Error: " ++ message ++ Str.nl in
  let file_line := "[Error] " ++ message ++ Str.nl in
  let st1 := SetLogger (Some dispatcher) st in
  CreateLogger (config_of "error" "stderr") st = (Some dispatcher, st)
  /\ DebugLog fmt args st1 = st1
  /\ InfoLog fmt args st1 = st1
  /\ ErrorLog fmt args st1
     = (FAIL,
        mkState (Some dispatcher)
          (trace st ++ [EvFputs stderr console_line; EvLock;
                        EvFputs stderr file_line; EvUnlock])%list)
  /\ written_to stderr (trace (snd (ErrorLog fmt args st1)))
     = (written_to stderr (trace st) ++ [console_line; file_line])%list.
Proof.
  intros Hpos dispatcher message console_line file_line st1.
  assert (Hlen : String.length message < MAX_LOG_LENGTH).
  { pose proof (length_snprintf MAX_LOG_LENGTH fmt args). subst message. lia. }
  assert (Hcreate : CreateLogger (config_of "error" "stderr") st
                    = (Some dispatcher, st)).
  { assert (Hlv : fst (GetLogLevel (config_of "error" "stderr") st) = (OKAY, Error)).
    { unfold GetLogLevel. rewrite config_of_LogLevel. reflexivity. }
    destruct (CreateLogger_ok _ st Error Hlv) as (opens & Hall & Hrun).
    rewrite config_of_LogOutput in Hall, Hrun.
    vm_compute parse_outputs in Hall, Hrun.
    simpl in Hall, Hrun. inversion Hall; subst. rewrite Hrun. 
    rewrite app_nil_r. now destruct st. }
  assert (Herr : ErrorLog fmt args st1
     = (FAIL,
        mkState (Some dispatcher)
          (trace st ++ [EvFputs stderr console_line; EvLock;
                        EvFputs stderr file_line; EvUnlock])%list)).
  { unfold ErrorLog, st1, SetLogger, s_Logger_call. cbn [s_Logger trace].
    fold message. unfold dispatcher. rewrite CLogger_call_MultiLogger.
    rewrite CMultiLogger_each_cons, CLogger_call_Console. cbv beta iota.
    rewrite CMultiLogger_each_cons, CLogger_call_FileLogger.
    destruct (CFileLogger_call_run mErrorLog (mkFileLogger Error [] [stderr] [])
                message (trace st ++ [EvFputs stderr console_line])%list eq_refl)
      as (opens & Hall & Hrun).
    fold console_line. rewrite Hrun. inversion Hall; subst.
    rewrite (CFileLogger_log_message_full mErrorLog message Hlen).
    simpl. unfold ret. now rewrite <- app_assoc. }
  split; [exact Hcreate |].
  split.
  { unfold DebugLog, st1, SetLogger, s_Logger_call. cbn [s_Logger trace].
    unfold dispatcher. rewrite CLogger_call_MultiLogger.
    rewrite CMultiLogger_each_cons, CLogger_call_Console. cbv beta iota.
    rewrite CMultiLogger_each_cons, CLogger_call_FileLogger.
    now rewrite CFileLogger_call_skip. }
  split.
  { unfold InfoLog, st1, SetLogger, s_Logger_call. cbn [s_Logger trace].
    unfold dispatcher. rewrite CLogger_call_MultiLogger.
    rewrite CMultiLogger_each_cons, CLogger_call_Console. cbv beta iota.
    rewrite CMultiLogger_each_cons, CLogger_call_FileLogger.
    now rewrite CFileLogger_call_skip. }
  split; [exact Herr |].
  rewrite Herr. simpl snd. cbn [trace]. rewrite written_to_app. reflexivity.
Qed.

(** C5, as the code has it.  For the destination list
    "stdout, STDOUT ,  FILE.txt,file.txt" the keywords collapse without
    regard to case, so there is one pre-opened stream, [stdout]; the file
    names collapse only when they are the same string after trimming, so
    both "FILE.txt" and "file.txt" are kept, as two paths: the file logger
    the factory constructs has these two paths and this one stream.  For
    this and for every other destination list, no path and no stream is
    held twice. *)
Theorem repeated_outputs (config : gmap string string) (st : State)
    (level : LogLevel) :
  config !! "LogOutput" = Some outputs_repeated ->
  fst (GetLogLevel config st) = (OKAY, level) ->
  parse_outputs (Util.Split outputs_repeated ","%char)
  = (["stdout"], ["FILE.txt"; "file.txt"])
  /\ (exists opens : list Event,
       Forall2 (is_open_of ios_out) ["FILE.txt"; "file.txt"] opens
       /\ fst (CreateLogger config st)
          = Some (MultiLogger
                    [ConsoleErrorLogger;
                     FileLogger
                       (mkFileLogger level ["FILE.txt"; "file.txt"] [stdout]
                          (opened_paths opens))]))
  /\ (forall outputs : list string,
       NoDup (snd (parse_outputs outputs))
       /\ NoDup (collect_systemFiles (fst (parse_outputs outputs)))).
Proof.
  intros Hout Hlv.
  assert (Hparse : parse_outputs (Util.Split outputs_repeated ","%char)
                   = (["stdout"], ["FILE.txt"; "file.txt"])) by reflexivity.
  split; [exact Hparse |]. split.
  - destruct (CreateLogger_ok config st level Hlv) as (opens & Hall & Hrun).
    unfold ValueAsDefault in Hall, Hrun. rewrite Hout in Hall, Hrun.
    change (default EmptyString (Some outputs_repeated)) with outputs_repeated
      in Hall, Hrun.
    rewrite Hparse in Hall, Hrun.
    exists opens. split; [exact Hall | now rewrite Hrun].
  - intros outputs. split; [| apply collect_systemFiles_NoDup].
    now destruct (parse_outputs_spec outputs) as (_ & _ & _ & Hnd).
Qed.

(** C8, as the code has it.  When the [LogLevel] string is not
    recognised, the resolution reports "Invalid log level: <token>" through
    the entry point [ErrorLog], that is to the logger installed at that
    moment, not to the console logger of the dispatcher under construction:
    with no logger installed nothing is written anywhere; with an
    installed dispatcher whose first sink is a console logger (as in every
    dispatcher the factory builds) the line
    "Error: Invalid log level: <token>\n", the message cut to
    [MAX_LOG_LENGTH - 1] characters, is written to [stderr] first; so it is
    when the installed logger is a console logger alone. *)
Theorem invalid_level_report (config : gmap string string)
    (t : list Event) (rest : list CLogger) :
  Util.ToLower (ValueAsDefault config "LogLevel" "info")
    ∉ ["debug"; "info"; "error"; "all"] ->
  let token := Util.ToLower (ValueAsDefault config "LogLevel" "info") in
  let message :=
    Str.take (MAX_LOG_LENGTH - 1) ("Invalid log level: " ++ Str.c_str token) in
  (forall st : State,
     GetLogLevel config st
     = ((FAIL, Info),
        snd (ErrorLog "Invalid log level: %s" [ArgStr (Str.c_str token)] st)))
  /\ GetLogLevel config (mkState None t) = ((FAIL, Info), mkState None t)
  /\ GetLogLevel config (mkState (Some ConsoleErrorLogger) t)
     = ((FAIL, Info),
        mkState (Some ConsoleErrorLogger)
          (t ++ [EvFputs stderr ("Error: " ++ message ++ Str.nl)%string])%list)
  /\ exists (rest' : list CLogger) (evs : list Event),
       GetLogLevel config
         (mkState (Some (MultiLogger (ConsoleErrorLogger :: rest))) t)
       = ((FAIL, Info),
          mkState (Some (MultiLogger (ConsoleErrorLogger :: rest')))
            (t ++ [EvFputs stderr ("Error: " ++ message ++ Str.nl)%string]
               ++ evs)%list).
Proof.
  intros Hbad token message.
  assert (Hget : forall st : State,
     GetLogLevel config st
     = ((FAIL, Info),
        snd (ErrorLog "Invalid log level: %s" [ArgStr (Str.c_str token)] st))).
  { intros st. exact (GetLogLevel_fail config st (logLevelByString_None _ Hbad)). }
  split; [exact Hget |]. split; [now rewrite Hget |].
  rewrite !Hget. unfold ErrorLog, s_Logger_call. cbn [s_Logger trace snd].
  unfold Printf.snprintf. rewrite expand_invalid. fold message.
  split; [now rewrite CLogger_call_Console |].
  rewrite CLogger_call_MultiLogger, CMultiLogger_each_cons, CLogger_call_Console.
  cbv beta iota.
  set (t1 := (t ++ [EvFputs stderr ("Error: " ++ message ++ Str.nl)%string])%list).
  destruct (CLogger_call_extends mErrorLog (MultiLogger rest) message t1)
    as (evs & Hext & _).
  rewrite CLogger_call_MultiLogger in Hext.
  destruct (CMultiLogger_each mErrorLog rest message t1) as [rest' t2].
  simpl in Hext. subst t2. exists rest', evs. subst t1.
  now rewrite <- app_assoc.
Qed.

(* ===================================================================== *)
(** ** Further properties of the code *)
(* ===================================================================== *)

(** *** Resolving the level *)

Lemma tolower_idem (c : ascii) : Util.tolower (Util.tolower c) = Util.tolower c.
Proof. destruct c as [[] [] [] [] [] [] [] []]; reflexivity. Qed.

Lemma ToLower_idem (s : string) : Util.ToLower (Util.ToLower s) = Util.ToLower s.
Proof.
  induction s as [|c s IH]; simpl; [reflexivity |].
  now rewrite tolower_idem, IH.
Qed.

(** X1. The level is resolved from the lower-cased [LogLevel] string alone:
    "debug", "info", "error" and "all", in any capitalization, give their
    level and leave the process untouched; every other string gives
    [FAIL] after the error report; a configuration without the key resolves
    to [Info]. *)
Theorem GetLogLevel_resolution (config : gmap string string) (st : State)
    (value : string) :
  GetLogLevel config st
  = (let token := Util.ToLower (ValueAsDefault config "LogLevel" "info") in
     if String.eqb token "debug" then ((OKAY, Debug), st)
     else if String.eqb token "info" then ((OKAY, Info), st)
     else if String.eqb token "error" then ((OKAY, Error), st)
     else if String.eqb token "all" then ((OKAY, All), st)
     else ((FAIL, Info),
           snd (ErrorLog "Invalid log level: %s" [ArgStr (Str.c_str token)] st)))
  /\ GetLogLevel (delete "LogLevel" config) st = ((OKAY, Info), st)
  /\ GetLogLevel (<["LogLevel" := value]> config) st
     = GetLogLevel (<["LogLevel" := Util.ToLower value]> config) st.
Proof.
  split; [| split].
  - cbv zeta.
    set (token := Util.ToLower (ValueAsDefault config "LogLevel" "info")).
    destruct (String.eqb_spec token "debug") as [Hd|Hd];
      [unfold GetLogLevel; fold token; now rewrite Hd |].
    destruct (String.eqb_spec token "info") as [Hi|Hi];
      [unfold GetLogLevel; fold token; now rewrite Hi |].
    destruct (String.eqb_spec token "error") as [He|He];
      [unfold GetLogLevel; fold token; now rewrite He |].
    destruct (String.eqb_spec token "all") as [Ha|Ha];
      [unfold GetLogLevel; fold token; now rewrite Ha |].
    apply GetLogLevel_fail. apply logLevelByString_None. fold token.
    rewrite !not_elem_of_cons. repeat split; try assumption. apply not_elem_of_nil.
  - unfold GetLogLevel, ValueAsDefault. now rewrite lookup_delete_eq.
  - unfold GetLogLevel, ValueAsDefault. rewrite !lookup_insert_eq.
    cbn [default from_option id]. now rewrite ToLower_idem.
Qed.

(** *** The sets of the factory *)

Lemma parse_outputs_ordered (outputs : list string) :
  StdSet.ordered (fst (parse_outputs outputs))
  /\ StdSet.ordered (snd (parse_outputs outputs)).
Proof.
  unfold parse_outputs.
  assert (Hgen : forall sets,
    StdSet.ordered (fst sets) /\ StdSet.ordered (snd sets) ->
    StdSet.ordered (fst (fold_left classify outputs sets))
    /\ StdSet.ordered (snd (fold_left classify outputs sets))).
  { induction outputs as [|o outputs IH]; intros sets Hord; simpl;
      [exact Hord | apply IH, classify_ordered, Hord]. }
  apply Hgen. split; constructor.
Qed.

(** Two sets with the same elements are the same list. *)
Lemma StdSet_ordered_ext (s1 s2 : StdSet.t) :
  StdSet.ordered s1 -> StdSet.ordered s2 ->
  (forall x, x ∈ s1 <-> x ∈ s2) -> s1 = s2.
Proof.
  unfold StdSet.ordered. intros H1; revert s2.
  induction H1 as [|a s1 Hs1 IH Ha]; intros s2 H2 Hext.
  - destruct s2 as [|b s2]; [reflexivity |].
    exfalso. apply (not_elem_of_nil b), Hext, list_elem_of_here.
  - destruct H2 as [|b s2 Hs2 Hb].
    + exfalso. apply (not_elem_of_nil a), Hext, list_elem_of_here.
    + rewrite Forall_forall in Ha, Hb.
      assert (Hab : a = b).
      { assert (Hina : a ∈ b :: s2) by (apply Hext, list_elem_of_here).
        assert (Hinb : b ∈ a :: s1) by (apply Hext, list_elem_of_here).
        apply elem_of_cons in Hina, Hinb.
        destruct Hina as [?|Hina]; [assumption |].
        destruct Hinb as [?|Hinb]; [congruence |].
        exfalso. apply (StdSet_lt_irrefl a).
        apply (StdSet_lt_trans a b a); [now apply Ha | now apply Hb]. }
      subst b. f_equal. apply IH; [exact Hs2 |].
      intros x. split; intros Hx.
      * assert (Hx' : x ∈ a :: s2) by (apply Hext; now apply list_elem_of_further).
        apply elem_of_cons in Hx'. destruct Hx' as [->|?]; [| assumption].
        exfalso. exact (StdSet_lt_irrefl a (Ha a Hx)).
      * assert (Hx' : x ∈ a :: s1) by (apply Hext; now apply list_elem_of_further).
        apply elem_of_cons in Hx'. destruct Hx' as [->|?]; [| assumption].
        exfalso. exact (StdSet_lt_irrefl a (Hb a Hx)).
Qed.

(** X2. The two sets the factory builds do not depend on the order of the
    entries of the destination list nor on how often an entry is repeated:
    two lists with the same entries give the same destinations and the
    same file names, and the file names are always in increasing order, the
    order in which the file logger receives them. *)
Theorem parse_outputs_order_insensitive (outputs1 outputs2 : list string) :
  (forall output, output ∈ outputs1 <-> output ∈ outputs2) ->
  parse_outputs outputs1 = parse_outputs outputs2
  /\ StronglySorted (fun a b => String.compare a b = Lt)
       (snd (parse_outputs outputs1)).
Proof.
  intros Hsame.
  destruct (parse_outputs_ordered outputs1) as [Hd1 Hf1].
  destruct (parse_outputs_ordered outputs2) as [Hd2 Hf2].
  destruct (parse_outputs_spec outputs1) as (Hed1 & Hef1 & _).
  destruct (parse_outputs_spec outputs2) as (Hed2 & Hef2 & _).
  split; [| exact Hf1].
  apply injective_projections; apply StdSet_ordered_ext; try assumption;
    intros x.
  - rewrite Hed1, Hed2. split; intros (Hs & o & Ho & Hx);
      (split; [exact Hs |]); exists o; (split; [now apply Hsame | exact Hx]).
  - rewrite Hef1, Hef2. split; intros (o & Ho & Hx); exists o;
      (split; [now apply Hsame | exact Hx]).
Qed.

Lemma nil_of_no_elem {A} (l : list A) : (forall x, x ∉ l) -> l = [].
Proof.
  destruct l as [|a l]; [reflexivity |].
  intros H. exfalso. apply (H a), list_elem_of_here.
Qed.

(** X3. When the destination list has no entry at all, the key being
    absent or every entry being empty or white space, the factory returns
    the console logger alone and does nothing else: no file is opened. *)
Theorem CreateLogger_console_only (config : gmap string string) (st : State)
    (level : LogLevel) :
  fst (GetLogLevel config st) = (OKAY, level) ->
  Forall (fun output => Util.TrimWhiteSpace (Util.ToLower output) = EmptyString)
    (Util.Split (ValueAsDefault config "LogOutput" EmptyString) ","%char) ->
  CreateLogger config st = (Some (MultiLogger [ConsoleErrorLogger]), st)
  /\ CreateLogger (delete "LogOutput" config) st
     = (Some (MultiLogger [ConsoleErrorLogger]), st).
Proof.
  assert (Hgen : forall cfg,
    fst (GetLogLevel cfg st) = (OKAY, level) ->
    Forall (fun output => Util.TrimWhiteSpace (Util.ToLower output) = EmptyString)
      (Util.Split (ValueAsDefault cfg "LogOutput" EmptyString) ","%char) ->
    CreateLogger cfg st = (Some (MultiLogger [ConsoleErrorLogger]), st)).
  { intros cfg Hlv Hall. rewrite Forall_forall in Hall.
    destruct (CreateLogger_ok cfg st level Hlv) as (opens & Hopens & Hrun).
    destruct (parse_outputs_spec
                (Util.Split (ValueAsDefault cfg "LogOutput" EmptyString) ","%char))
      as (Hd & Hf & _).
    assert (Hd0 : fst (parse_outputs
                (Util.Split (ValueAsDefault cfg "LogOutput" EmptyString) ","%char))
                  = []).
    { apply nil_of_no_elem. intros x Hx. apply Hd in Hx.
      destruct Hx as (Hs & o & Ho & ->). rewrite (Hall o Ho) in Hs.
      apply supportedDestinations_elem_of in Hs.
      destruct Hs as [Hs|[Hs|Hs]]; discriminate. }
    assert (Hf0 : snd (parse_outputs
                (Util.Split (ValueAsDefault cfg "LogOutput" EmptyString) ","%char))
                  = []).
    { apply nil_of_no_elem. intros x Hx. apply Hf in Hx.
      destruct Hx as (o & Ho & _ & _ & Hne). apply Hne. now apply Hall. }
    rewrite Hd0, Hf0 in Hrun. rewrite Hf0 in Hopens. inversion Hopens; subst.
    rewrite Hrun. simpl. rewrite app_nil_r. now destruct st. }
  intros Hlv Hall. split; [now apply Hgen |].
  apply Hgen.
  - unfold GetLogLevel, ValueAsDefault in Hlv |- *.
    rewrite lookup_delete_ne by discriminate. exact Hlv.
  - unfold ValueAsDefault. rewrite lookup_delete_eq. repeat constructor.
Qed.

Lemma isspace_tolower (c : ascii) : Util.isspace (Util.tolower c) = Util.isspace c.
Proof. destruct c as [[] [] [] [] [] [] [] []]; reflexivity. Qed.

Lemma ToLower_drop_space (s : string) :
  Util.ToLower (Util.drop_space s) = Util.drop_space (Util.ToLower s).
Proof.
  induction s as [|c s IH]; simpl; [reflexivity |].
  rewrite isspace_tolower. now destruct (Util.isspace c).
Qed.

Lemma ToLower_drop_space_end (s : string) :
  Util.ToLower (Util.drop_space_end s) = Util.drop_space_end (Util.ToLower s).
Proof.
  induction s as [|c s IH]; simpl; [reflexivity |].
  rewrite <- IH, isspace_tolower.
  destruct (Util.drop_space_end s); simpl; [| reflexivity].
  now destruct (Util.isspace c).
Qed.

(** Lower-casing and trimming commute. *)
Lemma ToLower_TrimWhiteSpace (s : string) :
  Util.ToLower (Util.TrimWhiteSpace s) = Util.TrimWhiteSpace (Util.ToLower s).
Proof.
  unfold Util.TrimWhiteSpace.
  now rewrite ToLower_drop_space_end, ToLower_drop_space.
Qed.

Lemma drop_space_end_idem (s : string) :
  Util.drop_space_end (Util.drop_space_end s) = Util.drop_space_end s.
Proof.
  induction s as [|c s IH]; simpl; [reflexivity |].
  destruct (Util.drop_space_end s) as [|d r] eqn:Hr.
  - destruct (Util.isspace c) eqn:Hc; simpl; [reflexivity | now rewrite Hc].
  - change (Util.drop_space_end (String c (String d r)))
      with (match Util.drop_space_end (String d r) with
            | EmptyString =>
                if Util.isspace c then EmptyString else String c EmptyString
            | (String _ _) as r0 => String c r0
            end).
    now rewrite IH.
Qed.

Lemma drop_space_head (s : string) :
  match Util.drop_space s with
  | EmptyString => True
  | String c _ => Util.isspace c = false
  end.
Proof.
  induction s as [|c s IH]; simpl; [exact I |].
  destruct (Util.isspace c) eqn:Hc; [exact IH | exact Hc].
Qed.

Lemma TrimWhiteSpace_idem (s : string) :
  Util.TrimWhiteSpace (Util.TrimWhiteSpace s) = Util.TrimWhiteSpace s.
Proof.
  unfold Util.TrimWhiteSpace.
  pose proof (drop_space_head s) as Hhead.
  destruct (Util.drop_space s) as [|c x]; [reflexivity |].
  assert (Hkeep : Util.drop_space (Util.drop_space_end (String c x))
                  = Util.drop_space_end (String c x)).
  { simpl. destruct (Util.drop_space_end x); rewrite ?Hhead; simpl;
      now rewrite Hhead. }
  rewrite Hkeep. apply drop_space_end_idem.
Qed.

(** X4. Every file name the factory hands to the file logger is a trimmed
    entry of the destination list: it is not empty, it has no white space
    around it, and it is not one of the keywords "stdout", "stderr",
    "syslog" in any capitalization. *)
Theorem filenames_proper (outputs : list string) (filename : string) :
  filename ∈ snd (parse_outputs outputs) ->
  filename <> EmptyString
  /\ Util.TrimWhiteSpace filename = filename
  /\ (Util.ToLower filename ∉ ["stdout"; "stderr"; "syslog"])
  /\ exists output, output ∈ outputs /\ filename = Util.TrimWhiteSpace output.
Proof.
  intros Hin.
  destruct (parse_outputs_spec outputs) as (_ & Hf & _).
  apply Hf in Hin. destruct Hin as (o & Ho & -> & Hk & Hne).
  rewrite <- ToLower_TrimWhiteSpace in Hk, Hne.
  split; [| split; [| split]].
  - intros H0. apply Hne. now rewrite H0.
  - apply TrimWhiteSpace_idem.
  - intros Hin. apply Hk. apply supportedDestinations_elem_of.
    rewrite !elem_of_cons, elem_of_nil in Hin. tauto.
  - now exists o.
Qed.

(** X5. Once the level is resolved, all the factory does to the outside
    world is one open attempt, creating or truncating, per file name, in the
    order of the set; the handles of the file logger are the paths that
    opened; the logger installed in the process is left as it was: the
    factory installs nothing and writes nothing. *)
Theorem CreateLogger_effects (config : gmap string string) (st : State)
    (level : LogLevel) :
  fst (GetLogLevel config st) = (OKAY, level) ->
  let filenames :=
    snd (parse_outputs
           (Util.Split (ValueAsDefault config "LogOutput" EmptyString) ","%char)) in
  exists opens : list Event,
    Forall2 (is_open_of ios_out) filenames opens
    /\ snd (CreateLogger config st)
       = mkState (s_Logger st) (trace st ++ opens)%list
    /\ GetLogger (snd (CreateLogger config st)) = GetLogger st
    /\ (forall fp, written_to fp (trace (snd (CreateLogger config st)))
                   = written_to fp (trace st))
    /\ (forall f loggers,
          fst (CreateLogger config st) = Some (MultiLogger loggers) ->
          FileLogger f ∈ loggers -> m_logFiles f = opened_paths opens).
Proof.
  intros Hlv filenames.
  destruct (CreateLogger_ok config st level Hlv) as (opens & Hopens & Hrun).
  fold filenames in Hopens, Hrun.
  exists opens. split; [exact Hopens |]. rewrite Hrun. simpl fst. simpl snd.
  split; [reflexivity |]. split; [reflexivity |]. split.
  - intros fp. cbn [trace]. rewrite written_to_app.
    assert (Hnone : written_to fp opens = []).
    { clear Hrun. induction Hopens as [|n e ns es [ok ->] _ IH];
        [reflexivity | exact IH]. }
    rewrite Hnone. apply app_nil_r.
  - intros f loggers [= <-] Hin.
    rewrite elem_of_cons, elem_of_app in Hin. destruct Hin as [Hin|[Hin|Hin]].
    + discriminate.
    + destruct filenames, (collect_systemFiles _);
        try (now apply elem_of_nil in Hin);
        apply list_elem_of_singleton in Hin; now injection Hin as ->.
    + destruct (bool_decide _); [| now apply elem_of_nil in Hin].
      apply list_elem_of_singleton in Hin. discriminate.
Qed.

(** *** The dispatcher *)

Lemma CMultiLogger_each_app (m : Method) (a b : list CLogger)
    (message : string) (t : list Event) :
  CMultiLogger_each m (a ++ b) message t
  = (let (a', t1) := CMultiLogger_each m a message t in
     let (b', t2) := CMultiLogger_each m b message t1 in
     ((a' ++ b')%list, t2)).
Proof.
  revert t; induction a as [|l a IH]; intros t.
  - simpl. unfold ret. now destruct (CMultiLogger_each m b message t).
  - change ((l :: a) ++ b)%list with (l :: (a ++ b))%list.
    rewrite !CMultiLogger_each_cons.
    destruct (CLogger_call m l message t) as [l' t0]. rewrite IH.
    destruct (CMultiLogger_each m a message t0) as [a' t1].
    now destruct (CMultiLogger_each m b message t1).
Qed.


Lemma CLogger_call_keeps_configuration (m : Method) (logger : CLogger)
    (message : string) (t : list Event) :
  forget_handles (fst (CLogger_call m logger message t))
  = forget_handles logger.
Proof.
  revert t.
  induction logger as [loggers IH| |f|level] using CLogger_nested_ind;
    intros t.
  - rewrite CLogger_call_MultiLogger.
    assert (Hall : forall t0,
      map forget_handles (fst (CMultiLogger_each m loggers message t0))
      = map forget_handles loggers).
    { induction IH as [|l ls Hl _ IHls]; intros t0; [reflexivity |].
      rewrite CMultiLogger_each_cons.
      specialize (Hl t0). destruct (CLogger_call m l message t0) as [l' t1].
      specialize (IHls t1).
      destruct (CMultiLogger_each m ls message t1) as [ls' t2].
      simpl in Hl, IHls |- *. now rewrite Hl, IHls. }
    specialize (Hall t).
    destruct (CMultiLogger_each m loggers message t) as [ls' t'].
    simpl in Hall |- *. now rewrite Hall.
  - now rewrite CLogger_call_Console.
  - rewrite CLogger_call_FileLogger.
    destruct (LogLevel_gt (m_logLevel f) (Method_level m)) eqn:Hf.
    + now rewrite (CFileLogger_call_skip m f message t Hf).
    + pose proof (CFileLogger_call_run m f message t Hf) as Hrun.
      cbv zeta in Hrun. destruct m.
      * now rewrite Hrun.
      * destruct Hrun as (opens & _ & Hrun). now rewrite Hrun.
      * destruct Hrun as (opens & _ & Hrun). now rewrite Hrun.
  - now rewrite CLogger_call_SystemLogger.
Qed.

(** X7. Logging never reconfigures a logger: after any method call the
    logger has the same structure, the same floors, the same file names and
    the same pre-opened streams; only the open handles of its file loggers
    may have changed. *)
Theorem logging_keeps_configuration (m : Method) (logger : CLogger)
    (message : string) (t : list Event) :
  forget_handles (fst (CLogger_call m logger message t))
  = forget_handles logger.
Proof. exact (CLogger_call_keeps_configuration m logger message t). Qed.

(** *** The handles of a file logger *)

Lemma opened_paths_sublist (mode : openmode) (filenames : list string)
    (opens : list Event) :
  Forall2 (is_open_of mode) filenames opens ->
  sublist (opened_paths opens) (map Str.c_str filenames).
Proof.
  induction 1 as [|n e ns es [ok ->] _ IH]; simpl; [constructor |].
  destruct ok; [now apply sublist_skip | now apply sublist_cons].
Qed.

(** The open attempts of [ReopenFiles], one by one: the outcome recorded
    for each is the answer of the file system at that moment. *)
Lemma open_each_outcomes (mode : openmode) (filenames : list string)
    (files : list ofstream) (t : list Event) :
  exists opens : list Event,
    open_each mode filenames files t
    = ((files ++ opened_paths opens)%list, (t ++ opens)%list)
    /\ Forall2 (is_open_of mode) filenames opens
    /\ forall (i : nat) (filename : string),
         filenames !! i = Some filename ->
         opens !! i
         = Some (EvOpen (Str.c_str filename) mode
                   (open_ok (t ++ take i opens)%list (Str.c_str filename) mode)).
Proof.
  revert files t; induction filenames as [|n rest IH]; intros files t.
  - exists []. simpl. unfold ret. rewrite !app_nil_r.
    split; [reflexivity |]. split; [constructor |]. intros i x Hx.
    now rewrite lookup_nil in Hx.
  - simpl. unfold bind, open_ofstream.
    set (path := Str.c_str n).
    set (ok := open_ok t path mode).
    destruct (IH (if ok then (files ++ [path])%list else files)
                 (t ++ [EvOpen path mode ok])%list)
      as (opens & Hrun & Hall & Hout).
    exists (EvOpen path mode ok :: opens). split; [| split].
    + rewrite Hrun. f_equal.
      * destruct ok; simpl; [now rewrite <- app_assoc | reflexivity].
      * now rewrite <- app_assoc.
    + constructor; [now exists ok | exact Hall].
    + intros [|i] x Hx; simpl in Hx |- *.
      * injection Hx as <-. now rewrite app_nil_r.
      * rewrite (Hout i x Hx). now rewrite <- app_assoc.
Qed.

(** X8. [ReopenFiles] closes every handle it held and then tries every file
    name once, in order, in the mode it is given; each attempt succeeds or
    fails as the file system answers at that moment, and the handles the
    file logger holds afterwards are exactly the paths of the attempts that
    succeeded, in that order (so they are paths of its file names, at most
    one per file name); the floor, the file names and the pre-opened
    streams are as before. *)
Theorem ReopenFiles_handles (this : CFileLogger) (mode : openmode)
    (t : list Event) :
  exists opens : list Event,
    CFileLogger_ReopenFiles this mode t
    = (mkFileLogger (m_logLevel this) (m_logFilenames this)
         (m_systemFiles this) (opened_paths opens),
       (t ++ map EvClose (m_logFiles this) ++ opens)%list)
    /\ length opens = length (m_logFilenames this)
    /\ (forall (i : nat) (filename : string),
          m_logFilenames this !! i = Some filename ->
          opens !! i
          = Some (EvOpen (Str.c_str filename) mode
                    (open_ok (t ++ map EvClose (m_logFiles this) ++ take i opens)%list
                       (Str.c_str filename) mode)))
    /\ sublist (opened_paths opens) (map Str.c_str (m_logFilenames this))
    /\ length (opened_paths opens) <= length (m_logFilenames this).
Proof.
  unfold CFileLogger_ReopenFiles, bind. rewrite for_each_emit.
  destruct (open_each_outcomes mode (m_logFilenames this) []
              (t ++ map EvClose (m_logFiles this))%list)
    as (opens & Hrun & Hall & Hout).
  exists opens. rewrite Hrun. unfold ret. simpl.
  pose proof (opened_paths_sublist mode _ _ Hall) as Hsub.
  split; [now rewrite <- app_assoc |].
  split; [symmetry; eapply Forall2_length; exact Hall |].
  split; [| split; [exact Hsub |]].
  - intros i x Hx. rewrite (Hout i x Hx). now rewrite <- app_assoc.
  - apply sublist_length in Hsub. now rewrite length_map in Hsub.
Qed.

Lemma open_each_const (mode : openmode) (ok : bool) :
  (forall t path, open_ok t path mode = ok) ->
  forall (filenames : list string) (files : list ofstream) (t : list Event),
  open_each mode filenames files t
  = ((files ++ (if ok then map Str.c_str filenames else []))%list,
     (t ++ map (fun filename => EvOpen (Str.c_str filename) mode ok) filenames)%list).
Proof.
  intros Hok filenames. induction filenames as [|n ns IH]; intros files t.
  - simpl. unfold ret. destruct ok; now rewrite !app_nil_r.
  - simpl. unfold bind, open_ofstream. rewrite Hok, IH.
    destruct ok; simpl; now rewrite <- !app_assoc.
Qed.

(** X9. A path that could not be opened is tried again by every admitted
    [InfoLog] and [ErrorLog]: when every open attempt in append mode
    succeeds, the call leaves the file logger with one handle per file
    name, whatever handles it held before; when every attempt fails, it
    leaves it with none. *)
Theorem reopen_recovers (m : Method) (this : CFileLogger) (message : string)
    (t : list Event) (ok : bool) :
  (forall t' path, open_ok t' path ios_app = ok) ->
  (LogLevel_int (m_logLevel this) <= LogLevel_int (Method_level m))%Z ->
  m <> mDebugLog ->
  m_logFiles (fst (CFileLogger_call m this message t))
  = (if ok then map Str.c_str (m_logFilenames this) else []).
Proof.
  intros Hok Hfloor Hm. apply LogLevel_gt_false in Hfloor.
  destruct m; [congruence | |]; simpl in Hfloor |- *;
    unfold CFileLogger_InfoLog, CFileLogger_ErrorLog; rewrite Hfloor;
    unfold bind, emit at 1; rewrite WriteToFiles_run;
    unfold CFileLogger_ReopenFiles, bind; rewrite for_each_emit;
    rewrite (open_each_const ios_app ok Hok); reflexivity.
Qed.

(** *** What a crash could lose *)

Lemma unsaved_from_app (pending : list (ofstream * string)) (a b : list Event) :
  unsaved_from pending (a ++ b) = unsaved_from (unsaved_from pending a) b.
Proof. unfold unsaved_from. apply fold_left_app. Qed.

Lemma unsaved_from_writes (pending : list (ofstream * string))
    (hs : list ofstream) (line : string) :
  unsaved_from pending (map (fun ofs => EvWrite ofs line) hs)
  = (pending ++ map (fun ofs => (ofs, line)) hs)%list.
Proof.
  revert pending; induction hs as [|h hs IH]; intros pending; simpl.
  - now rewrite app_nil_r.
  - unfold unsaved_from in IH |- *. simpl. rewrite IH. now rewrite <- app_assoc.
Qed.

Lemma unsaved_from_fputs (pending : list (ofstream * string))
    (fps : list FILE) (line : string) :
  unsaved_from pending (map (fun fp => EvFputs fp line) fps) = pending.
Proof.
  induction fps as [|fp fps IH]; [reflexivity | exact IH].
Qed.

Lemma unsaved_from_opens (pending : list (ofstream * string))
    (mode : openmode) (filenames : list string) (opens : list Event) :
  Forall2 (is_open_of mode) filenames opens ->
  unsaved_from pending opens = pending.
Proof.
  induction 1 as [|n e ns es [ok ->] _ IH]; [reflexivity | exact IH].
Qed.

Lemma unsaved_from_closes (pending : list (ofstream * string))
    (hs : list ofstream) :
  unsaved_from pending (map EvClose hs)
  = List.filter (fun w => negb (is_handle hs (fst w))) pending.
Proof.
  revert pending; induction hs as [|h hs IH]; intros pending.
  - simpl. induction pending as [|w p IHp]; [reflexivity |].
    simpl. now rewrite <- IHp.
  - unfold unsaved_from in IH |- *. simpl. rewrite IH. clear IH.
    induction pending as [|[o l] p IHp]; [reflexivity |].
    cbn [List.filter fst is_handle existsb].
    destruct (String.eqb o h); cbn [negb orb List.filter fst]; [exact IHp |].
    fold (is_handle hs o).
    destruct (is_handle hs o); cbn [negb]; [exact IHp | now rewrite IHp].
Qed.

Lemma filter_own_writes (hs : list ofstream) (line : string) :
  List.filter (fun w : ofstream * string => negb (is_handle hs (fst w)))
    (map (fun ofs => (ofs, line)) hs) = [].
Proof.
  assert (Hgen : forall hs0,
    (forall h, In h hs0 -> is_handle hs h = true) ->
    List.filter (fun w : ofstream * string => negb (is_handle hs (fst w)))
      (map (fun ofs => (ofs, line)) hs0) = []).
  { induction hs0 as [|h hs0 IH]; intros Hin; [reflexivity |].
    simpl. rewrite (Hin h) by now left. simpl. apply IH.
    intros h' Hh'. apply Hin. now right. }
  apply Hgen. intros h Hh. unfold is_handle. apply existsb_exists.
  exists h. split; [exact Hh | apply String.eqb_refl].
Qed.

(** X10. An admitted [InfoLog] or [ErrorLog] of a file logger leaves
    nothing of this logger unsaved: every line written to one of its
    handles, by this call or by earlier [DebugLog] calls, has been followed
    by the close of the handle when the call returns.  An admitted
    [DebugLog] adds its line, once per open handle, to what is unsaved. *)
Theorem info_and_error_are_saved (m : Method) (this : CFileLogger)
    (message : string) (t : list Event) :
  (LogLevel_int (m_logLevel this) <= LogLevel_int (Method_level m))%Z ->
  unsaved (snd (CFileLogger_call m this message t))
  = match m with
    | mDebugLog =>
        (unsaved t
         ++ map (fun ofs => (ofs, CFileLogger_log_message m message))
              (m_logFiles this))%list
    | _ =>
        List.filter (fun w => negb (is_handle (m_logFiles this) (fst w)))
          (unsaved t)
    end.
Proof.
  intros Hfloor. apply LogLevel_gt_false in Hfloor.
  pose proof (CFileLogger_call_run m this message t Hfloor) as Hrun.
  cbv zeta in Hrun. unfold unsaved.
  destruct m.
  - rewrite Hrun. cbn [snd].
    rewrite !unsaved_from_app, unsaved_from_fputs.
    change (unsaved_from (unsaved_from [] t) [EvLock]) with (unsaved_from [] t).
    rewrite unsaved_from_writes. reflexivity.
  - destruct Hrun as (opens & Hall & Hrun). rewrite Hrun. cbn [snd].
    rewrite !unsaved_from_app, unsaved_from_fputs.
    rewrite (unsaved_from_opens _ _ _ _ Hall).
    change (unsaved_from (unsaved_from [] t) [EvLock]) with (unsaved_from [] t).
    rewrite unsaved_from_writes, unsaved_from_closes.
    rewrite List.filter_app, filter_own_writes. apply app_nil_r.
  - destruct Hrun as (opens & Hall & Hrun). rewrite Hrun. cbn [snd].
    rewrite !unsaved_from_app, unsaved_from_fputs.
    rewrite (unsaved_from_opens _ _ _ _ Hall).
    change (unsaved_from (unsaved_from [] t) [EvLock]) with (unsaved_from [] t).
    rewrite unsaved_from_writes, unsaved_from_closes.
    rewrite List.filter_app, filter_own_writes. apply app_nil_r.
Qed.

(** *** Messages longer than the buffers *)

Lemma take_app_length (a b : string) (n : nat) :
  Str.take (String.length a + n) (a ++ b) = a ++ Str.take n b.
Proof.
  induction a as [|x a IH]; [reflexivity |].
  rewrite !append_cons. simpl. now rewrite IH.
Qed.

Lemma take_app_short (a b : string) (n : nat) :
  n <= String.length a -> Str.take n (a ++ b) = Str.take n a.
Proof.
  revert n; induction a as [|x a IH]; intros [|n] H; simpl in *;
    try reflexivity; try lia.
  rewrite ?append_cons. simpl. f_equal. apply IH. lia.
Qed.

(** X11. A message of [MAX_LOG_LENGTH] characters or more, handed to a
    sink, is cut and loses the newline of the format: the line of a file
    logger and the [InfoLog] and [ErrorLog] lines of a system logger are
    the prefix and the first [MAX_LOG_LENGTH] characters of the message;
    the [DebugLog] line of a system logger, whose buffer is one byte
    shorter than the file logger's, carries one character less. *)
Theorem long_messages_are_cut (m : Method) (message : string) :
  0 < MAX_LOG_LENGTH ->
  MAX_LOG_LENGTH <= String.length message ->
  CFileLogger_log_message m message
  = match m with
    | mDebugLog => "[Debug] " ++ Str.take MAX_LOG_LENGTH message
    | mInfoLog => "[Info] " ++ Str.take MAX_LOG_LENGTH message
    | mErrorLog => "[Error] " ++ Str.take MAX_LOG_LENGTH message
    end
  /\ CSystemLogger_log_message m message
     = match m with
       | mDebugLog => "[Debug] " ++ Str.take (MAX_LOG_LENGTH - 1) message
       | mInfoLog => "[Info] " ++ Str.take MAX_LOG_LENGTH message
       | mErrorLog => "[Error] " ++ Str.take MAX_LOG_LENGTH message
       end
  /\ String.length (CFileLogger_log_message m message) + 1
     = CFileLogger_sizeof_log_message m
  /\ String.length (CSystemLogger_log_message m message) + 1
     = CSystemLogger_sizeof_log_message m.
Proof.
  intros Hpos Hlen.
  assert (Hfile : CFileLogger_log_message m message
    = match m with
      | mDebugLog => "[Debug] " ++ Str.take MAX_LOG_LENGTH message
      | mInfoLog => "[Info] " ++ Str.take MAX_LOG_LENGTH message
      | mErrorLog => "[Error] " ++ Str.take MAX_LOG_LENGTH message
      end).
  { unfold CFileLogger_log_message, Printf.snprintf.
    destruct m; unfold CFileLogger_format, CFileLogger_sizeof_log_message;
      rewrite ?expand_Debug_nl, ?expand_Info_nl, ?expand_Error_nl.
    - replace (MAX_LOG_LENGTH + 9 - 1)
        with (String.length "[Debug] " + MAX_LOG_LENGTH) by (simpl; lia).
      rewrite take_app_length. f_equal. now apply take_app_short.
    - replace (MAX_LOG_LENGTH + 8 - 1)
        with (String.length "[Info] " + MAX_LOG_LENGTH) by (simpl; lia).
      rewrite take_app_length. f_equal. now apply take_app_short.
    - replace (MAX_LOG_LENGTH + 9 - 1)
        with (String.length "[Error] " + MAX_LOG_LENGTH) by (simpl; lia).
      rewrite take_app_length. f_equal. now apply take_app_short. }
  assert (Hsys : CSystemLogger_log_message m message
    = match m with
      | mDebugLog => "[Debug] " ++ Str.take (MAX_LOG_LENGTH - 1) message
      | mInfoLog => "[Info] " ++ Str.take MAX_LOG_LENGTH message
      | mErrorLog => "[Error] " ++ Str.take MAX_LOG_LENGTH message
      end).
  { unfold CSystemLogger_log_message, Printf.snprintf.
    destruct m; unfold CSystemLogger_format, CSystemLogger_sizeof_log_message;
      rewrite ?expand_Debug, ?expand_Info_nl, ?expand_Error_nl.
    - replace (MAX_LOG_LENGTH + 8 - 1)
        with (String.length "[Debug] " + (MAX_LOG_LENGTH - 1)) by (simpl; lia).
      now rewrite take_app_length.
    - replace (MAX_LOG_LENGTH + 8 - 1)
        with (String.length "[Info] " + MAX_LOG_LENGTH) by (simpl; lia).
      rewrite take_app_length. f_equal. now apply take_app_short.
    - replace (MAX_LOG_LENGTH + 9 - 1)
        with (String.length "[Error] " + MAX_LOG_LENGTH) by (simpl; lia).
      rewrite take_app_length. f_equal. now apply take_app_short. }
  split; [exact Hfile |]. split; [exact Hsys |].
  rewrite Hfile, Hsys.
  destruct m; unfold CFileLogger_sizeof_log_message,
    CSystemLogger_sizeof_log_message;
    rewrite !length_append, !length_take; simpl; lia.
Qed.

(** *** The mutex of a file logger *)

Lemma lock_discipline_app (held : bool) (a b : list Event) :
  lock_discipline held (a ++ b)
  = match lock_discipline held a with
    | Some held' => lock_discipline held' b
    | None => None
    end.
Proof.
  revert held; induction a as [|e a IH]; intros held; [reflexivity |].
  destruct e as [| | |path [|] ok| | |]; simpl; destruct held;
    try reflexivity; apply IH.
Qed.

Lemma lock_discipline_held_map {A} (f : A -> Event) (l : list A) :
  (forall x, f x <> EvLock /\ f x <> EvUnlock) ->
  lock_discipline true (map f l) = Some true.
Proof.
  intros Hf. induction l as [|x l IH]; [reflexivity |].
  simpl. destruct (Hf x) as [H1 H2].
  destruct (f x) as [| | |path [|] ok| | |]; try exact IH; congruence.
Qed.

Lemma lock_discipline_held_opens (filenames : list string) (opens : list Event) :
  Forall2 (is_open_of ios_app) filenames opens ->
  lock_discipline true opens = Some true.
Proof.
  induction 1 as [|n e ns es [ok ->] _ IH]; [reflexivity | exact IH].
Qed.

Lemma lock_discipline_held_app (a b : list Event) :
  lock_discipline true a = Some true ->
  lock_discipline true (a ++ b) = lock_discipline true b.
Proof. intros H. now rewrite lock_discipline_app, H. Qed.

Lemma CLogger_call_lock_discipline (m : Method) (logger : CLogger)
    (message : string) (t : list Event) :
  exists evs : list Event,
    snd (CLogger_call m logger message t) = (t ++ evs)%list
    /\ lock_discipline false evs = Some false.
Proof.
  revert t.
  induction logger as [loggers IH| |f|level] using CLogger_nested_ind;
    intros t.
  - rewrite CLogger_call_MultiLogger.
    assert (Hall : exists evs, snd (CMultiLogger_each m loggers message t)
                               = (t ++ evs)%list
                               /\ lock_discipline false evs = Some false).
    { revert t; induction IH as [|l ls Hl _ IHls]; intros t.
      - exists []. simpl. unfold ret. simpl. now rewrite app_nil_r.
      - rewrite CMultiLogger_each_cons.
        destruct (Hl t) as (e1 & H1 & F1).
        destruct (CLogger_call m l message t) as [l' t1]. simpl in H1. subst t1.
        destruct (IHls (t ++ e1)%list) as (e2 & H2 & F2).
        destruct (CMultiLogger_each m ls message (t ++ e1)%list) as [ls' t2].
        simpl in H2 |- *. subst t2. exists (e1 ++ e2)%list.
        split; [now rewrite app_assoc |].
        now rewrite lock_discipline_app, F1. }
    destruct Hall as (evs & H & F).
    destruct (CMultiLogger_each m loggers message t) as [ls' t'].
    now exists evs.
  - rewrite CLogger_call_Console. destruct m; simpl.
    + exists []. now rewrite app_nil_r.
    + exists []. now rewrite app_nil_r.
    + eexists. split; reflexivity.
  - rewrite CLogger_call_FileLogger.
    destruct (LogLevel_gt (m_logLevel f) (Method_level m)) eqn:Hf.
    + rewrite (CFileLogger_call_skip m f message t Hf). simpl.
      exists []. now rewrite app_nil_r.
    + pose proof (CFileLogger_call_run m f message t Hf) as Hrun.
      cbv zeta in Hrun.
      assert (Hw : forall line,
        lock_discipline true
          (map (fun ofs => EvWrite ofs line) (m_logFiles f)
           ++ map (fun fp => EvFputs fp line) (m_systemFiles f))%list = Some true).
      { intros line. rewrite lock_discipline_app.
        rewrite lock_discipline_held_map by (intros x; split; discriminate).
        apply lock_discipline_held_map. intros x; split; discriminate. }
      destruct m.
      * rewrite Hrun. cbn [snd]. eexists. split; [reflexivity |].
        rewrite (lock_discipline_app false [EvLock]). cbn [lock_discipline].
        now rewrite lock_discipline_held_app by apply Hw.
      * destruct Hrun as (opens & Hall & Hrun). rewrite Hrun. cbn [snd].
        eexists. split; [reflexivity |].
        rewrite (lock_discipline_app false [EvLock]). cbn [lock_discipline].
        rewrite lock_discipline_held_app by apply Hw.
        rewrite lock_discipline_held_app
          by (apply lock_discipline_held_map; intros x; split; discriminate).
        now rewrite lock_discipline_held_app
          by (eapply lock_discipline_held_opens; eassumption).
      * destruct Hrun as (opens & Hall & Hrun). rewrite Hrun. cbn [snd].
        eexists. split; [reflexivity |].
        rewrite (lock_discipline_app false [EvLock]). cbn [lock_discipline].
        rewrite lock_discipline_held_app by apply Hw.
        rewrite lock_discipline_held_app
          by (apply lock_discipline_held_map; intros x; split; discriminate).
        now rewrite lock_discipline_held_app
          by (eapply lock_discipline_held_opens; eassumption).
  - rewrite CLogger_call_SystemLogger.
    destruct (LogLevel_gt level (Method_level m)) eqn:Hs.
    + rewrite (CSystemLogger_call_skip m level message t Hs). simpl.
      exists []. now rewrite app_nil_r.
    + rewrite (CSystemLogger_call_run m level message t Hs). simpl.
      eexists. split; reflexivity.
Qed.

(** X12. Whatever a method call does to the log files (writes, closes,
    reopening for appending) it does while holding the mutex of the file
    logger; the mutex is taken only when free, released only when held, and
    is free again when the call returns. *)
Theorem logging_respects_the_mutex (m : Method) (logger : CLogger)
    (message : string) (t : list Event) :
  exists evs : list Event,
    snd (CLogger_call m logger message t) = (t ++ evs)%list
    /\ lock_discipline false evs = Some false.
Proof. exact (CLogger_call_lock_discipline m logger message t). Qed.

(** *** What a logger never touches *)

Lemma written_to_map_other {A} (fp : FILE) (f : A -> Event) (l : list A) :
  (forall x fp' str, f x = EvFputs fp' str -> fp' <> fp) ->
  written_to fp (map f l) = [].
Proof.
  intros Hf. induction l as [|x l IH]; [reflexivity |].
  simpl. specialize (Hf x).
  destruct (f x) as [fp' str| | | | | |]; try exact IH.
  specialize (Hf fp' str eq_refl). destruct fp, fp'; try exact IH; congruence.
Qed.

Lemma written_to_opens (fp : FILE) (mode : openmode) (filenames : list string)
    (opens : list Event) :
  Forall2 (is_open_of mode) filenames opens -> written_to fp opens = [].
Proof.
  induction 1 as [|n e ns es [ok ->] _ IH]; [reflexivity | exact IH].
Qed.

Lemma CFileLogger_call_streams (m : Method) (f : CFileLogger)
    (message : string) (t : list Event) (fp : FILE) :
  fp ∉ m_systemFiles f ->
  written_to fp (snd (CFileLogger_call m f message t)) = written_to fp t.
Proof.
  intros Hfp.
  assert (Hw : forall line,
    written_to fp (map (fun fp0 => EvFputs fp0 line) (m_systemFiles f)) = []).
  { intros line. revert Hfp. generalize (m_systemFiles f).
    induction l as [|fp0 fps IH]; intros Hn; [reflexivity |].
    apply not_elem_of_cons in Hn. destruct Hn as [Hne Hn]. simpl.
    destruct fp, fp0; try congruence; now apply IH. }
  destruct (LogLevel_gt (m_logLevel f) (Method_level m)) eqn:Hf.
  - now rewrite (CFileLogger_call_skip m f message t Hf).
  - pose proof (CFileLogger_call_run m f message t Hf) as Hrun.
    cbv zeta in Hrun. destruct m.
    + rewrite Hrun. cbn [snd]. rewrite !written_to_app, Hw.
      rewrite written_to_map_other by (intros; discriminate). simpl.
      apply app_nil_r.
    + destruct Hrun as (opens & Hall & Hrun). rewrite Hrun. cbn [snd].
      rewrite !written_to_app, Hw, (written_to_opens fp _ _ _ Hall).
      rewrite !written_to_map_other by (intros; discriminate). simpl.
      apply app_nil_r.
    + destruct Hrun as (opens & Hall & Hrun). rewrite Hrun. cbn [snd].
      rewrite !written_to_app, Hw, (written_to_opens fp _ _ _ Hall).
      rewrite !written_to_map_other by (intros; discriminate). simpl.
      apply app_nil_r.
Qed.

(** X13. A method call writes to a C stream only through a logger that
    has it: [stderr] for a console logger, the pre-opened streams of a file
    logger; what has been written to any other stream is unchanged, so a
    dispatcher without "stdout" among its destinations never writes to
    [stdout]. *)
Theorem logging_writes_own_streams (m : Method) (logger : CLogger)
    (message : string) (t : list Event) (fp : FILE) :
  fp ∉ streams_of logger ->
  written_to fp (snd (CLogger_call m logger message t)) = written_to fp t.
Proof.
  revert t.
  induction logger as [loggers IH| |f|level] using CLogger_nested_ind;
    intros t Hfp.
  - rewrite CLogger_call_MultiLogger.
    assert (Hall : forall t0,
      written_to fp (snd (CMultiLogger_each m loggers message t0))
      = written_to fp t0).
    { simpl in Hfp. induction IH as [|l ls Hl _ IHls]; intros t0; [reflexivity |].
      simpl in Hfp. apply not_elem_of_app in Hfp. destruct Hfp as [Hl0 Hls0].
      rewrite CMultiLogger_each_cons.
      specialize (Hl t0 Hl0). destruct (CLogger_call m l message t0) as [l' t1].
      specialize (IHls Hls0 t1).
      destruct (CMultiLogger_each m ls message t1) as [ls' t2].
      simpl in Hl, IHls |- *. now rewrite IHls. }
    specialize (Hall t).
    now destruct (CMultiLogger_each m loggers message t).
  - rewrite CLogger_call_Console. simpl in Hfp.
    apply not_elem_of_cons in Hfp. destruct Hfp as [Hne _].
    destruct m; simpl; try reflexivity.
    rewrite written_to_app. simpl. destruct fp; [| congruence].
    apply app_nil_r.
  - rewrite CLogger_call_FileLogger.
    pose proof (CFileLogger_call_streams m f message t fp Hfp) as H.
    now destruct (CFileLogger_call m f message t).
  - rewrite CLogger_call_SystemLogger. simpl.
    destruct (LogLevel_gt level (Method_level m)) eqn:Hs.
    + now rewrite (CSystemLogger_call_skip m level message t Hs).
    + rewrite (CSystemLogger_call_run m level message t Hs). simpl.
      rewrite written_to_app. simpl. apply app_nil_r.
Qed.

(** X14. With the dispatcher of the factory installed, whatever the
    configuration resolved, the entry point [ErrorLog] first writes
    "Error: <message>\n" to [stderr], the message being the formatted one
    and the line never cut after it; what the other sinks do comes after. *)
Theorem errors_reach_the_console (config : gmap string string) (st : State)
    (level : LogLevel) (fmt : string) (args : list Arg) :
  fst (GetLogLevel config st) = (OKAY, level) ->
  exists (dispatcher dispatcher' : CLogger) (st1 : State) (evs : list Event),
    CreateLogger config st = (Some dispatcher, st1)
    /\ ErrorLog fmt args (SetLogger (Some dispatcher) st1)
       = (FAIL,
          mkState (Some dispatcher')
            (trace st1
             ++ [EvFputs stderr
                   ("Error: " ++ Printf.snprintf MAX_LOG_LENGTH fmt args
                    ++ Str.nl)%string]
             ++ evs)%list).
Proof.
  intros Hlv.
  destruct (CreateLogger_ok config st level Hlv) as (opens & _ & Hrun).
  cbv zeta in Hrun. rewrite Hrun.
  match type of Hrun with
  | _ = (Some (MultiLogger ([ConsoleErrorLogger] ++ ?r)), ?s) =>
      set (rest := r); set (st1 := s)
  end.
  set (message := Printf.snprintf MAX_LOG_LENGTH fmt args).
  set (t1 := (trace st1 ++ [EvFputs stderr ("Error: " ++ message ++ Str.nl)%string])%list).
  destruct (CLogger_call_extends mErrorLog (MultiLogger rest) message t1)
    as (evs & Hext & _).
  rewrite CLogger_call_MultiLogger in Hext.
  destruct (CMultiLogger_each mErrorLog rest message t1) as [rest' t2] eqn:Hrest.
  simpl in Hext. subst t2.
  exists (MultiLogger ([ConsoleErrorLogger] ++ rest)),
         (MultiLogger (ConsoleErrorLogger :: rest')), st1, evs.
  split; [reflexivity |].
  unfold ErrorLog, SetLogger, s_Logger_call. cbn [s_Logger trace].
  fold message.
  change ([ConsoleErrorLogger] ++ rest)%list with (ConsoleErrorLogger :: rest).
  rewrite CLogger_call_MultiLogger, CMultiLogger_each_cons, CLogger_call_Console.
  cbv beta iota. fold t1. rewrite Hrest. subst t1.
  now rewrite <- app_assoc.
Qed.

(** X15. A message logged below the configured level produces nothing at
    all: for the dispatcher the factory builds with a resolved level, a
    method whose level is below that level leaves the dispatcher and the
    trace as they were. *)
Theorem below_level_is_silent (config : gmap string string) (st : State)
    (level : LogLevel) (m : Method) (message : string) (t : list Event) :
  fst (GetLogLevel config st) = (OKAY, level) ->
  (LogLevel_int (Method_level m) < LogLevel_int level)%Z ->
  exists dispatcher : CLogger,
    fst (CreateLogger config st) = Some dispatcher
    /\ CLogger_call m dispatcher message t = (dispatcher, t).
Proof.
  intros Hlv Hbelow.
  assert (Hm : m <> mErrorLog).
  { intros ->. destruct level; simpl in Hbelow; lia. }
  apply LogLevel_gt_true in Hbelow.
  destruct (CreateLogger_ok config st level Hlv) as (opens & _ & Hrun).
  cbv zeta in Hrun. rewrite Hrun. eexists. split; [reflexivity |].
  change ([ConsoleErrorLogger] ++ ?r)%list with (ConsoleErrorLogger :: r).
  rewrite CLogger_call_MultiLogger, CMultiLogger_each_cons, CLogger_call_Console.
  assert (Hcon : match m with
                 | mErrorLog =>
                     (t ++ [EvFputs stderr ("Error: " ++ message ++ Str.nl)%string])%list
                 | _ => t
                 end = t) by (destruct m; congruence).
  rewrite Hcon. cbv beta iota.
  match goal with
  | |- context [match ?fs with [] => _ | _ :: _ => _ end] =>
      set (fileLoggers := match fs with [] => _ | _ :: _ => _ end)
  end.
  assert (Hfile : CMultiLogger_each m fileLoggers message t = (fileLoggers, t)).
  { subst fileLoggers.
    match goal with
    | |- context [match ?fs with [] => _ | _ :: _ => _ end] => destruct fs
    end;
    [match goal with
     | |- context [match ?sf with [] => _ | _ :: _ => _ end] => destruct sf
     end |]; try reflexivity;
    rewrite CMultiLogger_each_cons, CLogger_call_FileLogger,
      CFileLogger_call_skip by exact Hbelow; reflexivity. }
  rewrite CMultiLogger_each_app, Hfile.
  destruct (bool_decide _); [| reflexivity].
  rewrite CMultiLogger_each_cons, CLogger_call_SystemLogger,
    CSystemLogger_call_skip by exact Hbelow. reflexivity.
Qed.

Lemma own_file_event_weaken (hs hs' : list ofstream) (ps ps' : list string)
    (e : Event) :
  (forall h, h ∈ hs -> h ∈ hs') -> (forall p, p ∈ ps -> p ∈ ps') ->
  own_file_event hs ps e -> own_file_event hs' ps' e.
Proof.
  intros Hh Hp. destruct e; simpl; auto. intros [H1 H2]. auto.
Qed.

Lemma Forall_own_opens (filenames : list string) (opens : list Event)
    (hs : list ofstream) (ps : list string) :
  (forall n, n ∈ filenames -> Str.c_str n ∈ ps) ->
  Forall2 (is_open_of ios_app) filenames opens ->
  Forall (own_file_event hs ps) opens.
Proof.
  intros Hp H. induction H as [|n e ns es [ok ->] _ IH]; constructor.
  - simpl. split; [apply Hp, list_elem_of_here | reflexivity].
  - apply IH. intros n' Hn'. apply Hp. now apply list_elem_of_further.
Qed.

Lemma CFileLogger_call_own_files (m : Method) (f : CFileLogger)
    (message : string) (t : list Event) :
  exists evs : list Event,
    snd (CFileLogger_call m f message t) = (t ++ evs)%list
    /\ Forall (own_file_event (m_logFiles f) (map Str.c_str (m_logFilenames f)))
         evs.
Proof.
  destruct (LogLevel_gt (m_logLevel f) (Method_level m)) eqn:Hf.
  - rewrite (CFileLogger_call_skip m f message t Hf). exists [].
    simpl. rewrite app_nil_r. split; [reflexivity | constructor].
  - pose proof (CFileLogger_call_run m f message t Hf) as Hrun.
    cbv zeta in Hrun.
    assert (Hwrites : forall line,
      Forall (own_file_event (m_logFiles f) (map Str.c_str (m_logFilenames f)))
        (map (fun ofs => EvWrite ofs line) (m_logFiles f)
         ++ map (fun fp => EvFputs fp line) (m_systemFiles f))%list).
    { intros line. apply Forall_app. split.
      - apply Forall_forall. intros e He. apply list_elem_of_fmap in He.
        destruct He as (ofs & -> & Hofs). exact Hofs.
      - now apply Forall_map_intro. }
    assert (Hcloses :
      Forall (own_file_event (m_logFiles f) (map Str.c_str (m_logFilenames f)))
        (map EvClose (m_logFiles f))).
    { apply Forall_forall. intros e He. apply list_elem_of_fmap in He.
      destruct He as (ofs & -> & Hofs). exact Hofs. }
    assert (Hopens : forall opens,
      Forall2 (is_open_of ios_app) (m_logFilenames f) opens ->
      Forall (own_file_event (m_logFiles f) (map Str.c_str (m_logFilenames f)))
        opens).
    { intros opens Hall. eapply Forall_own_opens; [| exact Hall].
      intros n Hn. apply list_elem_of_fmap. now exists n. }
    destruct m.
    + rewrite Hrun. eexists. split; [reflexivity |].
      constructor; [exact I |].
      apply Forall_app; split; [apply Hwrites | now repeat constructor].
    + destruct Hrun as (opens & Hall & Hrun). rewrite Hrun.
      eexists. split; [reflexivity |]. constructor; [exact I |].
      apply Forall_app; split; [apply Hwrites |].
      apply Forall_app; split; [exact Hcloses |].
      apply Forall_app; split; [now apply Hopens | now repeat constructor].
    + destruct Hrun as (opens & Hall & Hrun). rewrite Hrun.
      eexists. split; [reflexivity |]. constructor; [exact I |].
      apply Forall_app; split; [apply Hwrites |].
      apply Forall_app; split; [exact Hcloses |].
      apply Forall_app; split; [now apply Hopens | now repeat constructor].
Qed.

(** X16. A method call acts on no log file but the logger's own, and
    truncates none: every write and every close it does is on a handle the
    logger held open, and every open attempt it makes is on the path of one
    of the logger's file names and in append mode (which creates the file
    when it is missing and keeps what an existing file holds). *)
Theorem logging_touches_own_files (m : Method) (logger : CLogger)
    (message : string) (t : list Event) :
  exists evs : list Event,
    snd (CLogger_call m logger message t) = (t ++ evs)%list
    /\ Forall (own_file_event (handles_of logger) (paths_of logger)) evs.
Proof.
  revert t.
  induction logger as [loggers IH| |f|level] using CLogger_nested_ind;
    intros t.
  - rewrite CLogger_call_MultiLogger.
    assert (Hall : exists evs,
      snd (CMultiLogger_each m loggers message t) = (t ++ evs)%list
      /\ Forall (own_file_event (concat (map handles_of loggers))
                   (concat (map paths_of loggers))) evs).
    { revert t; induction IH as [|l ls Hl _ IHls]; intros t.
      - exists []. simpl. unfold ret. simpl. rewrite app_nil_r.
        split; [reflexivity | constructor].
      - rewrite CMultiLogger_each_cons.
        destruct (Hl t) as (e1 & H1 & F1).
        destruct (CLogger_call m l message t) as [l' t1]. simpl in H1. subst t1.
        destruct (IHls (t ++ e1)%list) as (e2 & H2 & F2).
        destruct (CMultiLogger_each m ls message (t ++ e1)%list) as [ls' t2].
        simpl in H2 |- *. subst t2. exists (e1 ++ e2)%list.
        split; [now rewrite app_assoc |].
        apply Forall_app. split.
        + eapply Forall_impl; [exact F1 |]. intros e He.
          eapply own_file_event_weaken; [| | exact He]; intros x Hx;
            apply elem_of_app; now left.
        + eapply Forall_impl; [exact F2 |]. intros e He.
          eapply own_file_event_weaken; [| | exact He]; intros x Hx;
            apply elem_of_app; now right. }
    destruct Hall as (evs & H & F).
    destruct (CMultiLogger_each m loggers message t) as [ls' t'].
    now exists evs.
  - rewrite CLogger_call_Console. destruct m; simpl.
    + exists []. rewrite app_nil_r. split; [reflexivity | constructor].
    + exists []. rewrite app_nil_r. split; [reflexivity | constructor].
    + eexists. split; [reflexivity |]. now repeat constructor.
  - rewrite CLogger_call_FileLogger.
    destruct (CFileLogger_call_own_files m f message t) as (evs & H & F).
    destruct (CFileLogger_call m f message t) as [f' t'].
    now exists evs.
  - rewrite CLogger_call_SystemLogger.
    destruct (LogLevel_gt level (Method_level m)) eqn:Hs.
    + rewrite (CSystemLogger_call_skip m level message t Hs). simpl.
      exists []. rewrite app_nil_r. split; [reflexivity | constructor].
    + rewrite (CSystemLogger_call_run m level message t Hs). simpl.
      eexists. split; [reflexivity |]. now repeat constructor.
Qed.


(** *** The process-wide logger along a run *)

Lemma entry_step (m : Method) (fmt : string) (args : list Arg) (st : State) :
  option_map forget_handles (s_Logger (entry m fmt args st))
  = option_map forget_handles (s_Logger st)
  /\ exists evs : list Event,
       trace (entry m fmt args st) = (trace st ++ evs)%list
       /\ Forall no_truncate evs
       /\ lock_discipline false evs = Some false.
Proof.
  set (message := Printf.snprintf MAX_LOG_LENGTH fmt args).
  assert (Hentry : entry m fmt args st
                   = match s_Logger st with
                     | None => st
                     | Some logger => s_Logger_call m logger message st
                     end).
  { destruct m; unfold entry, DebugLog, InfoLog, ErrorLog;
      now destruct (s_Logger st). }
  rewrite Hentry. destruct (s_Logger st) as [logger|] eqn:Hl.
  - unfold s_Logger_call.
    pose proof (CLogger_call_keeps_configuration m logger message (trace st)) as Hcfg.
    destruct (CLogger_call_extends m logger message (trace st))
      as (evs & Hevs & Hno).
    destruct (CLogger_call_lock_discipline m logger message (trace st))
      as (evs' & Hevs' & Hlock).
    destruct (CLogger_call m logger message (trace st)) as [logger' t'].
    simpl in Hcfg, Hevs, Hevs' |- *. rewrite Hcfg.
    split; [reflexivity |]. exists evs. split; [exact Hevs |].
    split; [exact Hno |].
    rewrite Hevs in Hevs'. apply app_inv_head in Hevs'. now subst evs'.
  - rewrite Hl. split; [reflexivity |]. exists []. rewrite app_nil_r.
    repeat split. constructor.
Qed.

(** X18. Along any run of calls of the entry points the process-wide
    logger stays installed, or absent, as it was, with the same
    configuration; the trace only grows; no file is opened in the
    truncating mode [std::ios::out], every open attempt of the run being a
    reopening in append mode; and the mutex is free at the end. *)
Theorem run_keeps_the_logger (calls : list (Method * string * list Arg))
    (st : State) :
  option_map forget_handles (GetLogger (run calls st))
  = option_map forget_handles (GetLogger st)
  /\ exists evs : list Event,
       trace (run calls st) = (trace st ++ evs)%list
       /\ Forall no_truncate evs
       /\ lock_discipline false evs = Some false.
Proof.
  unfold GetLogger. revert st.
  induction calls as [|[[m fmt] args] calls IH]; intros st.
  - split; [reflexivity |]. exists []. simpl. rewrite app_nil_r.
    repeat split. constructor.
  - simpl. destruct (entry_step m fmt args st) as (Hcfg & e1 & Ht1 & Hno1 & Hl1).
    destruct (IH (entry m fmt args st)) as (Hcfg' & e2 & Ht2 & Hno2 & Hl2).
    split; [now rewrite Hcfg', Hcfg |].
    exists (e1 ++ e2)%list. split; [now rewrite Ht2, Ht1, app_assoc |].
    split; [now apply Forall_app |].
    now rewrite lock_discipline_app, Hl1.
Qed.

End Logger.

(* ===================================================================== *)
(** ** The model at work *)
(* ===================================================================== *)

Example ToLower_ex : Util.ToLower "DeBug_1" = "debug_1".
Proof. reflexivity. Qed.

Example TrimWhiteSpace_ex : Util.TrimWhiteSpace "  a b  " = "a b".
Proof. reflexivity. Qed.

Example Split_ex :
  Util.Split "a,,b c," ","%char = ["a"; EmptyString; "b c"; EmptyString].
Proof. reflexivity. Qed.

Example Split_empty : Util.Split EmptyString ","%char = [EmptyString].
Proof. reflexivity. Qed.

Example snprintf_ex :
  Printf.snprintf 12 ("[Info] %s" ++ Str.nl) [ArgStr "hello world"] = "[Info] hell".
Proof. reflexivity. Qed.

Example expand_ex :
  Printf.expand "%d%% of %s" [ArgInt (-5); ArgStr "x"] = "-5% of x".
Proof. reflexivity. Qed.

Example CreateLogger_everything :
  CreateLogger 1024 always_opens config_everything state_startup
  = (Some (MultiLogger
             [ConsoleErrorLogger;
              FileLogger (mkFileLogger All ["a"; "b"] [stdout; stderr] ["a"; "b"]);
              SystemLogger All]),
     mkState None [EvOpen "a" ios_out true; EvOpen "b" ios_out true]).
Proof. vm_compute. reflexivity. Qed.

Example CreateLogger_default :
  CreateLogger 1024 always_opens ∅ state_startup
  = (Some (MultiLogger [ConsoleErrorLogger]), state_startup).
Proof. vm_compute. reflexivity. Qed.

(* ===================================================================== *)
(** ** Instances and counterexamples *)
(* ===================================================================== *)

Lemma CreateLogger_sinks_witness :
  fst (GetLogLevel 1024 always_opens config_everything state_startup)
  = (OKAY, All)
  /\ exists opens : list Event,
       Forall2 (is_open_of ios_out) ["a"; "b"] opens
       /\ fst (CreateLogger 1024 always_opens config_everything state_startup)
          = Some (MultiLogger
                    [ConsoleErrorLogger;
                     FileLogger
                       (mkFileLogger All ["a"; "b"] [stdout; stderr]
                          (opened_paths opens));
                     SystemLogger All]).
Proof.
  split; [reflexivity |].
  exact (proj1 (CreateLogger_sinks 1024 always_opens config_everything
                  state_startup All eq_refl)).
Defined.

Lemma invalid_level_fails_witness :
  (Util.ToLower (ValueAsDefault config_verbose "LogLevel" "info")
     ∉ ["debug"; "info"; "error"; "all"])
  /\ fst (GetLogLevel 1024 always_opens config_verbose state_startup)
     = (FAIL, Info)
  /\ CreateLogger 1024 always_opens config_verbose state_startup
     = (None, state_startup).
Proof.
  assert (Hbad : Util.ToLower (ValueAsDefault config_verbose "LogLevel" "info")
                   ∉ ["debug"; "info"; "error"; "all"]).
  { apply (bool_decide_unpack _). vm_compute. exact I. }
  split; [exact Hbad |].
  destruct (invalid_level_fails 1024 always_opens config_verbose state_startup
              Hbad) as (Hget & _ & Hcreate).
  split; [exact Hget | exact Hcreate].
Defined.

Lemma repeated_outputs_witness :
  config_repeated !! "LogOutput" = Some outputs_repeated
  /\ fst (GetLogLevel 1024 always_opens config_repeated state_startup)
     = (OKAY, Info)
  /\ exists opens : list Event,
       Forall2 (is_open_of ios_out) ["FILE.txt"; "file.txt"] opens
       /\ fst (CreateLogger 1024 always_opens config_repeated state_startup)
          = Some (MultiLogger
                    [ConsoleErrorLogger;
                     FileLogger
                       (mkFileLogger Info ["FILE.txt"; "file.txt"] [stdout]
                          (opened_paths opens))]).
Proof.
  assert (Hout : config_repeated !! "LogOutput" = Some outputs_repeated)
    by (vm_compute; reflexivity).
  assert (Hlv : fst (GetLogLevel 1024 always_opens config_repeated state_startup)
                = (OKAY, Info)) by (vm_compute; reflexivity).
  split; [exact Hout |]. split; [exact Hlv |].
  exact (proj1 (proj2 (repeated_outputs 1024 always_opens config_repeated
                         state_startup Info Hout Hlv))).
Defined.

(** The claim C5 fails: the two casings of the file name are two paths. *)
Lemma repeated_outputs_two_paths :
  snd (parse_outputs (Util.Split outputs_repeated ","%char))
  = ["FILE.txt"; "file.txt"]
  /\ fst (CreateLogger 1024 always_opens config_repeated state_startup)
     = Some (MultiLogger
               [ConsoleErrorLogger;
                FileLogger
                  (mkFileLogger Info ["FILE.txt"; "file.txt"] [stdout]
                     ["FILE.txt"; "file.txt"])])
  /\ length (snd (parse_outputs (Util.Split outputs_repeated ","%char))) <> 1.
Proof.
  split; [vm_compute; reflexivity |]. split; [vm_compute; reflexivity |].
  vm_compute. discriminate.
Qed.

Lemma error_only_on_stderr_witness :
  0 < 1024
  /\ written_to stderr
       (trace
          (snd (ErrorLog 1024 always_opens "Cannot open %s (code %d)"
                  [ArgStr "rom.zip"; ArgInt 2]
                  (SetLogger
                     (Some (MultiLogger
                              [ConsoleErrorLogger;
                               FileLogger (mkFileLogger Error [] [stderr] [])]))
                     state_startup))))
     = ["Error: Cannot open rom.zip (code 2)" ++ Str.nl;
        "[Error] Cannot open rom.zip (code 2)" ++ Str.nl].
Proof.
  assert (Hpos : 0 < 1024) by lia.
  split; [exact Hpos |].
  destruct (error_only_on_stderr 1024 always_opens "Cannot open %s (code %d)"
              [ArgStr "rom.zip"; ArgInt 2] state_startup Hpos)
    as (_ & _ & _ & _ & Hout).
  exact Hout.
Defined.

Lemma FileLogger_write_then_reopen_witness :
  (LogLevel_int (m_logLevel (sample_FileLogger Info))
   <= LogLevel_int (Method_level mErrorLog))%Z
  /\ exists opens : list Event,
       Forall2 (is_open_of ios_app) ["supermodel.log"] opens
       /\ CFileLogger_call 1024 always_opens mErrorLog (sample_FileLogger Info)
            "disk full" []
          = (mkFileLogger Info ["supermodel.log"] [stdout] (opened_paths opens),
             ([EvLock;
               EvWrite "supermodel.log" ("[Error] disk full" ++ Str.nl)%string;
               EvFputs stdout ("[Error] disk full" ++ Str.nl)%string;
               EvClose "supermodel.log"] ++ opens ++ [EvUnlock])%list).
Proof.
  assert (H : (LogLevel_int (m_logLevel (sample_FileLogger Info))
               <= LogLevel_int (Method_level mErrorLog))%Z) by (simpl; lia).
  split; [exact H |].
  exact (FileLogger_write_then_reopen 1024 always_opens mErrorLog
           (sample_FileLogger Info) "disk full" [] H).
Defined.

Lemma invalid_level_report_witness :
  (Util.ToLower (ValueAsDefault config_verbose "LogLevel" "info")
     ∉ ["debug"; "info"; "error"; "all"])
  /\ GetLogLevel 1024 always_opens config_verbose state_startup
     = ((FAIL, Info), state_startup)
  /\ exists (rest' : list CLogger) (evs : list Event),
       GetLogLevel 1024 always_opens config_verbose
         (mkState (Some (MultiLogger [ConsoleErrorLogger])) [])
       = ((FAIL, Info),
          mkState (Some (MultiLogger (ConsoleErrorLogger :: rest')))
            ([EvFputs stderr ("Error: Invalid log level: verbose" ++ Str.nl)%string]
               ++ evs)%list).
Proof.
  assert (Hbad : Util.ToLower (ValueAsDefault config_verbose "LogLevel" "info")
                   ∉ ["debug"; "info"; "error"; "all"]).
  { apply (bool_decide_unpack _). vm_compute. exact I. }
  split; [exact Hbad |].
  destruct (invalid_level_report 1024 always_opens config_verbose [] [] Hbad)
    as (_ & Hnone & _ & Hconsole).
  split; [exact Hnone | exact Hconsole].
Defined.

(** The claim C8 fails: at start-up no logger is installed, and the report
    of the invalid level reaches nothing. *)
Lemma invalid_level_unreported :
  (Util.ToLower (ValueAsDefault config_verbose "LogLevel" "info")
     ∉ ["debug"; "info"; "error"; "all"])
  /\ GetLogLevel 1024 always_opens config_verbose state_startup
     = ((FAIL, Info), state_startup)
  /\ written_to stderr
       (trace (snd (CreateLogger 1024 always_opens config_verbose state_startup)))
     = [].
Proof.
  split; [apply (bool_decide_unpack _); vm_compute; exact I |].
  split; vm_compute; reflexivity.
Qed.

Lemma SystemLogger_string_witness :
  String.length "frame 42" < 1024
  /\ (LogLevel_int All <= LogLevel_int (Method_level mDebugLog))%Z
  /\ CSystemLogger_call 1024 mDebugLog All "frame 42" []
     = (tt, [EvSyslog LOG_DEBUG "[Debug] frame 42"]).
Proof.
  assert (Hlen : String.length "frame 42" < 1024) by (simpl; lia).
  assert (Hfloor : (LogLevel_int All <= LogLevel_int (Method_level mDebugLog))%Z)
    by (simpl; lia).
  split; [exact Hlen |]. split; [exact Hfloor |].
  exact (SystemLogger_string 1024 mDebugLog All "frame 42" [] Hlen Hfloor).
Defined.

(** The claim C9 fails for a message of [MAX_LOG_LENGTH] characters handed
    to the sink: the buffer of [InfoLog] has no room left for the newline. *)
Lemma SystemLogger_long_message :
  CSystemLogger_call 1024 mInfoLog Info (Str.fill 1024 "x") []
  = (tt, [EvSyslog LOG_INFO ("[Info] " ++ Str.fill 1024 "x")])
  /\ CSystemLogger_call 1024 mInfoLog Info (Str.fill 1024 "x") []
     <> (tt, [EvSyslog LOG_INFO ("[Info] " ++ Str.fill 1024 "x" ++ Str.nl)]).
Proof.
  assert (H : CSystemLogger_call 1024 mInfoLog Info (Str.fill 1024 "x") []
              = (tt, [EvSyslog LOG_INFO ("[Info] " ++ Str.fill 1024 "x")]))
    by (vm_compute; reflexivity).
  split; [exact H |]. rewrite H. intros Heq.
  injection Heq as Heq. apply (f_equal String.length) in Heq.
  vm_compute in Heq. discriminate.
Qed.

Lemma staging_buffers_fit_witness :
  String.length "frame 42" < 1024
  /\ CFileLogger_log_message 1024 mInfoLog "frame 42"
     = "[Info] frame 42" ++ Str.nl
  /\ CSystemLogger_log_message 1024 mDebugLog "frame 42" = "[Debug] frame 42".
Proof.
  assert (Hlen : String.length "frame 42" < 1024) by (simpl; lia).
  split; [exact Hlen |].
  destruct (staging_buffers_fit 1024 mInfoLog "frame 42" Hlen)
    as ((_ & Hfile & _) & _).
  destruct (staging_buffers_fit 1024 mDebugLog "frame 42" Hlen)
    as (_ & (_ & Hsys & _)).
  split; [exact Hfile | exact Hsys].
Defined.

(* ===================================================================== *)
(** ** Instances of the further properties *)
(* ===================================================================== *)

Lemma parse_outputs_order_insensitive_witness :
  (forall output : string,
     output ∈ ["b.log"; "a.log"; "StdOut"]
     <-> output ∈ ["a.log"; "StdOut"; "b.log"; "a.log"])
  /\ parse_outputs ["b.log"; "a.log"; "StdOut"]
     = parse_outputs ["a.log"; "StdOut"; "b.log"; "a.log"].
Proof.
  assert (H : forall output : string,
     output ∈ ["b.log"; "a.log"; "StdOut"]
     <-> output ∈ ["a.log"; "StdOut"; "b.log"; "a.log"]).
  { intros output. rewrite !elem_of_cons, elem_of_nil. tauto. }
  split; [exact H |].
  exact (proj1 (parse_outputs_order_insensitive _ _ H)).
Defined.

Lemma CreateLogger_console_only_witness :
  fst (GetLogLevel 1024 always_opens (config_of "info" " , ,") state_startup)
  = (OKAY, Info)
  /\ Forall (fun output =>
              Util.TrimWhiteSpace (Util.ToLower output) = EmptyString)
       (Util.Split
          (ValueAsDefault (config_of "info" " , ,") "LogOutput" EmptyString)
          ","%char)
  /\ CreateLogger 1024 always_opens (config_of "info" " , ,") state_startup
     = (Some (MultiLogger [ConsoleErrorLogger]), state_startup).
Proof.
  assert (Hlv : fst (GetLogLevel 1024 always_opens (config_of "info" " , ,")
                       state_startup) = (OKAY, Info))
    by (vm_compute; reflexivity).
  assert (Hall : Forall (fun output =>
              Util.TrimWhiteSpace (Util.ToLower output) = EmptyString)
       (Util.Split
          (ValueAsDefault (config_of "info" " , ,") "LogOutput" EmptyString)
          ","%char)).
  { rewrite config_of_LogOutput. repeat constructor. }
  split; [exact Hlv |]. split; [exact Hall |].
  exact (proj1 (CreateLogger_console_only 1024 always_opens _ _ _ Hlv Hall)).
Defined.

Lemma filenames_proper_witness :
  "FILE.txt" ∈ snd (parse_outputs (Util.Split outputs_repeated ","%char))
  /\ "FILE.txt" <> EmptyString
  /\ Util.TrimWhiteSpace "FILE.txt" = "FILE.txt"
  /\ (Util.ToLower "FILE.txt" ∉ ["stdout"; "stderr"; "syslog"]).
Proof.
  assert (Hin : "FILE.txt"
                ∈ snd (parse_outputs (Util.Split outputs_repeated ","%char))).
  { apply (bool_decide_unpack _). vm_compute. exact I. }
  split; [exact Hin |].
  destruct (filenames_proper _ _ Hin) as (H1 & H2 & H3 & _).
  split; [exact H1 |]. split; [exact H2 | exact H3].
Defined.

Lemma CreateLogger_effects_witness :
  fst (GetLogLevel 1024 always_opens config_everything state_startup)
  = (OKAY, All)
  /\ exists opens : list Event,
       Forall2 (is_open_of ios_out) ["a"; "b"] opens
       /\ snd (CreateLogger 1024 always_opens config_everything state_startup)
          = mkState None opens.
Proof.
  assert (Hlv : fst (GetLogLevel 1024 always_opens config_everything
                       state_startup) = (OKAY, All))
    by (vm_compute; reflexivity).
  split; [exact Hlv |].
  destruct (CreateLogger_effects 1024 always_opens config_everything
              state_startup All Hlv) as (opens & Hall & Hst & _).
  exists opens. split; [exact Hall | exact Hst].
Defined.

Lemma reopen_recovers_witness :
  (forall (t' : list Event) (path : string),
     always_opens t' path ios_app = true)
  /\ (LogLevel_int Debug <= LogLevel_int (Method_level mInfoLog))%Z
  /\ mInfoLog <> mDebugLog
  /\ m_logFiles
       (fst (CFileLogger_call 1024 always_opens mInfoLog
               (mkFileLogger Debug ["a.log"; "b.log"] [] []) "ready" []))
     = ["a.log"; "b.log"].
Proof.
  assert (Hok : forall (t' : list Event) (path : string),
            always_opens t' path ios_app = true) by reflexivity.
  assert (Hfloor : (LogLevel_int Debug <= LogLevel_int (Method_level mInfoLog))%Z)
    by (simpl; lia).
  assert (Hm : mInfoLog <> mDebugLog) by discriminate.
  split; [exact Hok |]. split; [exact Hfloor |]. split; [exact Hm |].
  exact (reopen_recovers 1024 always_opens mInfoLog
           (mkFileLogger Debug ["a.log"; "b.log"] [] []) "ready" [] true
           Hok Hfloor Hm).
Defined.

Lemma info_and_error_are_saved_witness :
  (LogLevel_int (m_logLevel (sample_FileLogger Debug))
   <= LogLevel_int (Method_level mInfoLog))%Z
  /\ unsaved
       (snd (CFileLogger_call 1024 always_opens mInfoLog
               (sample_FileLogger Debug) "ready"
               (snd (CFileLogger_call 1024 always_opens mDebugLog
                       (sample_FileLogger Debug) "frame 42" []))))
     = [].
Proof.
  assert (Hfloor : (LogLevel_int (m_logLevel (sample_FileLogger Debug))
                    <= LogLevel_int (Method_level mInfoLog))%Z) by (simpl; lia).
  split; [exact Hfloor |].
  rewrite (info_and_error_are_saved 1024 always_opens mInfoLog
             (sample_FileLogger Debug) "ready" _ Hfloor).
  vm_compute. reflexivity.
Defined.

Lemma long_messages_are_cut_witness :
  0 < 8
  /\ 8 <= String.length "12345678"
  /\ CFileLogger_log_message 8 mDebugLog "12345678" = "[Debug] 12345678"
  /\ CSystemLogger_log_message 8 mDebugLog "12345678" = "[Debug] 1234567".
Proof.
  assert (Hpos : 0 < 8) by lia.
  assert (Hlen : 8 <= String.length "12345678") by (simpl; lia).
  split; [exact Hpos |]. split; [exact Hlen |].
  destruct (long_messages_are_cut 8 mDebugLog "12345678" Hpos Hlen)
    as (Hfile & Hsys & _).
  split; [exact Hfile | exact Hsys].
Defined.

Lemma logging_writes_own_streams_witness :
  (stdout
   ∉ streams_of
       (MultiLogger
          [ConsoleErrorLogger; FileLogger (mkFileLogger All [] [stderr] [])]))
  /\ written_to stdout
       (snd (CLogger_call 1024 always_opens mErrorLog
               (MultiLogger
                  [ConsoleErrorLogger;
                   FileLogger (mkFileLogger All [] [stderr] [])])
               "disk full" []))
     = [].
Proof.
  assert (Hfp : stdout
          ∉ streams_of
              (MultiLogger
                 [ConsoleErrorLogger;
                  FileLogger (mkFileLogger All [] [stderr] [])])).
  { simpl. rewrite !not_elem_of_cons.
    repeat split; try discriminate. apply not_elem_of_nil. }
  split; [exact Hfp |].
  exact (logging_writes_own_streams 1024 always_opens mErrorLog _ "disk full"
           [] stdout Hfp).
Defined.

Lemma errors_reach_the_console_witness :
  fst (GetLogLevel 1024 always_opens config_everything state_startup)
  = (OKAY, All)
  /\ exists (dispatcher dispatcher' : CLogger) (st1 : State) (evs : list Event),
       CreateLogger 1024 always_opens config_everything state_startup
       = (Some dispatcher, st1)
       /\ ErrorLog 1024 always_opens "Cannot open %s" [ArgStr "rom.zip"]
            (SetLogger (Some dispatcher) st1)
          = (FAIL,
             mkState (Some dispatcher')
               (trace st1
                ++ [EvFputs stderr ("Error: Cannot open rom.zip" ++ Str.nl)%string]
                ++ evs)%list).
Proof.
  assert (Hlv : fst (GetLogLevel 1024 always_opens config_everything
                       state_startup) = (OKAY, All))
    by (vm_compute; reflexivity).
  split; [exact Hlv |].
  exact (errors_reach_the_console 1024 always_opens config_everything
           state_startup All "Cannot open %s" [ArgStr "rom.zip"] Hlv).
Defined.

Lemma below_level_is_silent_witness :
  fst (GetLogLevel 1024 always_opens (config_of "error" "stderr,syslog")
         state_startup)
  = (OKAY, Error)
  /\ (LogLevel_int (Method_level mInfoLog) < LogLevel_int Error)%Z
  /\ exists dispatcher : CLogger,
       fst (CreateLogger 1024 always_opens (config_of "error" "stderr,syslog")
              state_startup)
       = Some dispatcher
       /\ CLogger_call 1024 always_opens mInfoLog dispatcher "ready" []
          = (dispatcher, []).
Proof.
  assert (Hlv : fst (GetLogLevel 1024 always_opens
                       (config_of "error" "stderr,syslog") state_startup)
                = (OKAY, Error)) by (vm_compute; reflexivity).
  assert (Hbelow : (LogLevel_int (Method_level mInfoLog) < LogLevel_int Error)%Z)
    by (simpl; lia).
  split; [exact Hlv |]. split; [exact Hbelow |].
  exact (below_level_is_silent 1024 always_opens _ state_startup Error
           mInfoLog "ready" [] Hlv Hbelow).
Defined.

